(** * Euporie: application lifecycle and coordination layer

    A shallow embedding of the coordination logic of
    [euporie/core/app.py] ([EuporieApp]) and [euporie/app/tui.py]
    ([TuiApp]): the tab collection and its close chain, the modal dialog
    discipline, the pre-run terminal negotiation and the style
    recomputation.

    The application object is a record [App]; methods are computations in
    a state-and-exception monad [M], so that a Python exception leaves the
    mutations made before it in place.  The layout engine, the tabs and the
    registered callables are external collaborators: they enter as a type
    class ([LayoutEngine]) and as a record of collaborators ([World]). *)

From Stdlib Require Import ZArith String List Bool Lia.
From stdpp Require Import base tactics option list strings.

(** ** Python values shared by the components *)

(** Exceptions the modelled code can raise or has handlers for. *)
Inductive exn :=
| ValueError
| ZeroDivisionError
| IndexError
| KeyError
| ClassNotFound (name : string)
| CallableError (code : nat).

Inductive outcome (A : Type) :=
| Ok (a : A)
| Raise (e : exn).
Arguments Ok {A} a.
Arguments Raise {A} e.

Definition Path := string.
Definition Control := nat.
Definition Container := nat.
Definition Callable := nat.
Definition TabClass := nat.

(** A tab object.  [tab_id] is the object's identity; [tab_path] is
    the attribute [path] of the tab object, with [None] for a tab without
    the attribute (the code reads it through [getattr] with a default
    that equals no path). *)
Record Tab := mkTab {
  tab_id : nat;
  tab_class : TabClass;
  tab_path : option Path
}.

#[global] Instance Tab_eq_dec : EqDecision Tab.
Proof. solve_decision. Defined.

(** prompt_toolkit's [FocusableElement]: what [Layout.focus] accepts. *)
Inductive FocusableElement :=
| FTab (t : Tab)
| FControl (c : Control)
| FContainer (w : Container).

(** The closures built by [TuiApp.exit] and [EuporieApp.close_tab],
    defunctionalised: [final_cb], the [inner] closure returned by
    [create_cb(close_tab, cleanup_tab, cb)], and
    [partial(self.cleanup_closed_tab, tab)]. *)
Inductive Callback :=
| final_cb
| inner (close_tab cleanup_tab : Tab) (cb : Callback)
| cleanup_partial (tab : Tab).

Definition create_cb (close_tab cleanup_tab : Tab) (cb : Callback) : Callback :=
  inner close_tab cleanup_tab cb.

Inductive Task :=
| await_terminal_feedback
| _poll_terminal_colors.

Inductive Query :=
| colors
| background_color
| foreground_color.

Inductive LogRecord :=
| log_opening_file (path : string)
| log_already_open (path : string)
| log_unable_to_display (path : string)
| log_load_error.

(** Calls that leave the application object, in the order they are made. *)
Inductive Event :=
| EvTabClose (t : Tab) (cb : Callback)
| EvReallyClose
| EvExitWithException (e : exn)
| EvInvalidate
| EvLoadKeyBindings
| EvSubscribe (q : Query)
| EvSendAll
| EvSleep
| EvBackgroundTask (t : Task)
| EvLoadContainer
| EvLoadClipboard
| EvRequestCursorPosition
| EvLog (r : LogRecord).

#[global] Instance Callback_eq_dec : EqDecision Callback.
Proof. solve_decision. Defined.
#[global] Instance exn_eq_dec : EqDecision exn.
Proof. solve_decision. Defined.
#[global] Instance Task_eq_dec : EqDecision Task.
Proof. solve_decision. Defined.
#[global] Instance Query_eq_dec : EqDecision Query.
Proof. solve_decision. Defined.
#[global] Instance LogRecord_eq_dec : EqDecision LogRecord.
Proof. solve_decision. Defined.
#[global] Instance Event_eq_dec : EqDecision Event.
Proof. solve_decision. Defined.

(** ** Dialog floats *)

(** The closure [inner] returned by [_make_handler(cb)] inside
    [TuiApp.dialog]: it captures [focused], [dialog_float] (by identity)
    and [cb]. *)
Record Handler := mkHandler {
  h_focused : Control;
  h_dialog_float : nat;
  h_cb : option Callable
}.

Record Button := mkButton {
  button_text : string;
  button_handler : Handler;
  button_widget : Container
}.

(** A key binding added to [kb]: the key, the handler and whether the
    binding carries the filter [~buffer_has_focus]. *)
Record KeyBinding := mkKeyBinding {
  kb_key : string;
  kb_handler : Handler;
  kb_unless_buffer_has_focus : bool
}.

Record Float := mkFloat {
  float_id : nat;
  float_title : string;
  float_body : Container;
  float_buttons : list Button;
  float_key_bindings : list KeyBinding
}.

(** ** Styles *)

Inductive StyleTransformation :=
| SetDefaultColorStyleTransformation (fg bg : string)
| SwapLightAndDarkStyleTransformation.

Record ConditionalStyleTransformation := mkConditional {
  cst_transformation : StyleTransformation;
  cst_filter : bool
}.

(** An entry of [ColorPalette.colors]: the base colour and the name it
    is registered under ([_base_override]). *)
Record PaletteColor := mkPaletteColor {
  pc_base : string;
  pc_base_override : string
}.

Inductive Style :=
| style_from_pygments_cls (syntax_theme : string)
| MIME_STYLE
| MARKDOWN_STYLE
| LOG_STYLE
| IPYWIDGET_STYLE
| build_style (palette : list (string * PaletteColor)).

Inductive ColorDepth :=
| DEPTH_1_BIT
| DEPTH_4_BIT
| DEPTH_8_BIT
| DEPTH_24_BIT.

(** The options of the global [config] object the modelled code reads. *)
Record Config := mkConfig {
  color_depth : option Z;
  color_scheme : string;
  syntax_theme : string;
  custom_foreground_color : string;
  custom_background_color : string;
  files : list string
}.

Record TerminalInfo := mkTerminalInfo {
  colors_value : list (string * string);
  depth_of_color_value : ColorDepth
}.

Record Renderer := mkRenderer {
  style : option (list Style);
  _waiting_for_cpr_futures : nat
}.

Inductive AppClass :=
| EuporieApp
| TuiApp.

(** ** The layout engine

    prompt_toolkit's [Layout] is an external collaborator.  The code uses
    [has_focus], [focus], [focus_next], [current_control] and
    [find_all_controls], and constructs a layout from the root container
    and [focused_element].  [focus] and [focus_next] raise [ValueError]
    when they have no target ([None] here): the code has handlers for
    that. *)
Class LayoutEngine (Layout : Type) := {
  Layout_new : option FocusableElement -> Layout;
  has_focus : Layout -> Tab -> bool;
  focus : FocusableElement -> Layout -> option Layout;
  focus_next : Layout -> option Layout;
  current_control : Layout -> Control;
  find_all_controls : Layout -> list Control
}.

Section Application.

Context {Layout : Type} {LE : LayoutEngine Layout}.

(** ** The application object *)

Record App := mkApp {
  tabs : list Tab;
  _tab_idx : Z;
  render_counter : Z;
  layout : Layout;
  focused_element : option FocusableElement;
  dialogs : list Float;
  has_dialog : bool;
  config : Config;
  term_info : TerminalInfo;
  renderer : Renderer;
  color_palette : list (string * PaletteColor);
  style_transformation : list ConditionalStyleTransformation;
  _color_depth : ColorDepth;
  _is_running : bool;
  input_closed : bool;
  using_vt100 : bool;
  post_load_callables : list Callable;
  app_class : AppClass;
  next_id : nat;
  events : list Event
}.

Definition set_tabs v (a : App) : App :=
  mkApp v (_tab_idx a) (render_counter a) (layout a) (focused_element a)
    (dialogs a) (has_dialog a) (config a) (term_info a) (renderer a)
    (color_palette a) (style_transformation a) (_color_depth a)
    (_is_running a) (input_closed a) (using_vt100 a)
    (post_load_callables a) (app_class a) (next_id a) (events a).
Definition set__tab_idx v (a : App) : App :=
  mkApp (tabs a) v (render_counter a) (layout a) (focused_element a)
    (dialogs a) (has_dialog a) (config a) (term_info a) (renderer a)
    (color_palette a) (style_transformation a) (_color_depth a)
    (_is_running a) (input_closed a) (using_vt100 a)
    (post_load_callables a) (app_class a) (next_id a) (events a).
Definition set_layout v (a : App) : App :=
  mkApp (tabs a) (_tab_idx a) (render_counter a) v (focused_element a)
    (dialogs a) (has_dialog a) (config a) (term_info a) (renderer a)
    (color_palette a) (style_transformation a) (_color_depth a)
    (_is_running a) (input_closed a) (using_vt100 a)
    (post_load_callables a) (app_class a) (next_id a) (events a).
Definition set_dialogs v (a : App) : App :=
  mkApp (tabs a) (_tab_idx a) (render_counter a) (layout a)
    (focused_element a) v (has_dialog a) (config a) (term_info a)
    (renderer a) (color_palette a) (style_transformation a)
    (_color_depth a) (_is_running a) (input_closed a) (using_vt100 a)
    (post_load_callables a) (app_class a) (next_id a) (events a).
Definition set_has_dialog v (a : App) : App :=
  mkApp (tabs a) (_tab_idx a) (render_counter a) (layout a)
    (focused_element a) (dialogs a) v (config a) (term_info a)
    (renderer a) (color_palette a) (style_transformation a)
    (_color_depth a) (_is_running a) (input_closed a) (using_vt100 a)
    (post_load_callables a) (app_class a) (next_id a) (events a).
Definition set_config v (a : App) : App :=
  mkApp (tabs a) (_tab_idx a) (render_counter a) (layout a)
    (focused_element a) (dialogs a) (has_dialog a) v (term_info a)
    (renderer a) (color_palette a) (style_transformation a)
    (_color_depth a) (_is_running a) (input_closed a) (using_vt100 a)
    (post_load_callables a) (app_class a) (next_id a) (events a).
Definition set_renderer v (a : App) : App :=
  mkApp (tabs a) (_tab_idx a) (render_counter a) (layout a)
    (focused_element a) (dialogs a) (has_dialog a) (config a)
    (term_info a) v (color_palette a) (style_transformation a)
    (_color_depth a) (_is_running a) (input_closed a) (using_vt100 a)
    (post_load_callables a) (app_class a) (next_id a) (events a).
Definition set_color_palette v (a : App) : App :=
  mkApp (tabs a) (_tab_idx a) (render_counter a) (layout a)
    (focused_element a) (dialogs a) (has_dialog a) (config a)
    (term_info a) (renderer a) v (style_transformation a) (_color_depth a)
    (_is_running a) (input_closed a) (using_vt100 a)
    (post_load_callables a) (app_class a) (next_id a) (events a).
Definition set_style_transformation v (a : App) : App :=
  mkApp (tabs a) (_tab_idx a) (render_counter a) (layout a)
    (focused_element a) (dialogs a) (has_dialog a) (config a)
    (term_info a) (renderer a) (color_palette a) v (_color_depth a)
    (_is_running a) (input_closed a) (using_vt100 a)
    (post_load_callables a) (app_class a) (next_id a) (events a).
Definition set__color_depth v (a : App) : App :=
  mkApp (tabs a) (_tab_idx a) (render_counter a) (layout a)
    (focused_element a) (dialogs a) (has_dialog a) (config a)
    (term_info a) (renderer a) (color_palette a) (style_transformation a)
    v (_is_running a) (input_closed a) (using_vt100 a)
    (post_load_callables a) (app_class a) (next_id a) (events a).
Definition set__is_running v (a : App) : App :=
  mkApp (tabs a) (_tab_idx a) (render_counter a) (layout a)
    (focused_element a) (dialogs a) (has_dialog a) (config a)
    (term_info a) (renderer a) (color_palette a) (style_transformation a)
    (_color_depth a) v (input_closed a) (using_vt100 a)
    (post_load_callables a) (app_class a) (next_id a) (events a).
Definition set_next_id v (a : App) : App :=
  mkApp (tabs a) (_tab_idx a) (render_counter a) (layout a)
    (focused_element a) (dialogs a) (has_dialog a) (config a)
    (term_info a) (renderer a) (color_palette a) (style_transformation a)
    (_color_depth a) (_is_running a) (input_closed a) (using_vt100 a)
    (post_load_callables a) (app_class a) v (events a).
Definition set_events v (a : App) : App :=
  mkApp (tabs a) (_tab_idx a) (render_counter a) (layout a)
    (focused_element a) (dialogs a) (has_dialog a) (config a)
    (term_info a) (renderer a) (color_palette a) (style_transformation a)
    (_color_depth a) (_is_running a) (input_closed a) (using_vt100 a)
    (post_load_callables a) (app_class a) (next_id a) v.

(** ** The state-and-exception monad *)

Definition M (A : Type) : Type := App -> outcome A * App.

Definition ret {A} (a : A) : M A := fun st => (Ok a, st).

Definition bind {A B} (m : M A) (k : A -> M B) : M B :=
  fun st =>
    match m st with
    | (Ok a, st') => k a st'
    | (Raise e, st') => (Raise e, st')
    end.

Definition raise {A} (e : exn) : M A := fun st => (Raise e, st).

Definition gets {A} (f : App -> A) : M A := fun st => (Ok (f st), st).

Definition modify (f : App -> App) : M unit := fun st => (Ok tt, f st).

Definition emit (e : Event) : M unit :=
  modify (fun st => set_events (events st ++ [e]) st).

(** [try: m except ValueError: pass] *)
Definition except_ValueError_pass (m : M unit) : M unit :=
  fun st =>
    match m st with
    | (Raise ValueError, st') => (Ok tt, st')
    | r => r
    end.

Notation "x <- m ;; k" := (bind m (fun x => k))
  (at level 100, m at next level, right associativity).
Notation "m ;; k" := (bind m (fun _ => k))
  (at level 100, right associativity).

(** ** Python list operations used on [self.tabs] *)

(** [l[i]], with Python's negative indices. *)
Definition getitem {A} (l : list A) (i : Z) : outcome A :=
  let n := Z.of_nat (length l) in
  let j := if (i <? 0)%Z then (i + n)%Z else i in
  if (j <? 0)%Z then Raise IndexError
  else match l !! Z.to_nat j with
       | Some a => Ok a
       | None => Raise IndexError
       end.

(** [l.remove(x)]: drops the first element equal to [x]. *)
Fixpoint list_remove_first (x : Tab) (l : list Tab) : option (list Tab) :=
  match l with
  | [] => None
  | y :: l' =>
      if decide (x = y) then Some l'
      else match list_remove_first x l' with
           | Some r => Some (y :: r)
           | None => None
           end
  end.

(** [l.index(x)] *)
Fixpoint list_index (x : Tab) (l : list Tab) : option Z :=
  match l with
  | [] => None
  | y :: l' =>
      if decide (x = y) then Some 0%Z
      else match list_index x l' with
           | Some i => Some (i + 1)%Z
           | None => None
           end
  end.

Definition tabs_getitem (i : Z) : M Tab :=
  fun st => (getitem (tabs st) i, st).

Definition tabs_remove (t : Tab) : M unit :=
  fun st =>
    match list_remove_first t (tabs st) with
    | Some l => (Ok tt, set_tabs l st)
    | None => (Raise ValueError, st)
    end.

Definition tabs_index (t : Tab) : M Z :=
  fun st =>
    match list_index t (tabs st) with
    | Some i => (Ok i, st)
    | None => (Raise ValueError, st)
    end.

Definition tabs_append (t : Tab) : M unit :=
  modify (fun st => set_tabs (tabs st ++ [t]) st).

(** ** Calls into the layout *)

Definition layout_focus (e : FocusableElement) : M unit :=
  fun st =>
    match focus e (layout st) with
    | Some l => (Ok tt, set_layout l st)
    | None => (Raise ValueError, st)
    end.

Definition layout_focus_next : M unit :=
  fun st =>
    match focus_next (layout st) with
    | Some l => (Ok tt, set_layout l st)
    | None => (Raise ValueError, st)
    end.

(** ** The tab collection ([EuporieApp]) *)

(** The loop of the [tab] property: the index of the first tab for which
    [self.render_counter > 0 and self.layout.has_focus(tab)] holds. *)
Fixpoint focused_tab_index (st : App) (ts : list Tab) (i : Z) : option Z :=
  match ts with
  | [] => None
  | t :: ts' =>
      if (0 <? render_counter st)%Z && has_focus (layout st) t then Some i
      else focused_tab_index st ts' (i + 1)%Z
  end.

(** The [tab] property. *)
Definition tab : M (option Tab) :=
  fun st =>
    match tabs st with
    | [] => (Ok None, st)
    | _ :: _ =>
        let st1 :=
          match focused_tab_index st (tabs st) 0%Z with
          | Some i => set__tab_idx i st
          | None => st
          end in
        let st2 :=
          set__tab_idx
            (Z.max 0 (Z.min (_tab_idx st1) (Z.of_nat (length (tabs st1)) - 1)))
            st1 in
        (t <- tabs_getitem (_tab_idx st2) ;; ret (Some t)) st2
    end.

(** The [tab_idx] property and its setter. *)
Definition tab_idx : M Z := gets _tab_idx.

Definition set_tab_idx (value : Z) : M unit :=
  fun st =>
    let n := Z.of_nat (length (tabs st)) in
    if (n =? 0)%Z then (Raise ZeroDivisionError, st)
    else
      let st1 := set__tab_idx (value mod n)%Z st in
      (t <- tabs_getitem (_tab_idx st1) ;; layout_focus (FTab t)) st1.

Definition focus_tab (t : Tab) : M unit :=
  i <- tabs_index t ;; set_tab_idx i.

(** [if self.tab: self.layout.focus(self.tab)] reads the property twice;
    the second read returns what the first did (lemma [tab_read_twice]),
    so one read stands for both.  A tab object is truthy. *)
Definition cleanup_closed_tab (t : Tab) : M unit :=
  tabs_remove t ;;
  cur <- tab ;;
  match cur with
  | Some cur => layout_focus (FTab cur)
  | None => except_ValueError_pass layout_focus_next
  end.

(** ** External collaborators

    What the application calls but does not define: the tabs' own
    [close], the path parser, the tab factory, the registered callables,
    the baseline colour table and the pygments style registry. *)
Class World := {
  (** [Tab.close(cb)] calls [cb] when the tab closes and never calls it
      when the user cancels; [closes t] tells which. *)
  closes : Tab -> bool;
  parse_path : string -> Path;
  (** [get_file_tab]: [None] in [EuporieApp], overridden by subclasses. *)
  get_file_tab : string -> option TabClass;
  (** Calling a callable registered by a client (a dialog button's
      callback, a post-load hook). *)
  run_callable : Callable -> M unit;
  (** [euporie.core.style.DEFAULT_COLORS], in insertion order. *)
  DEFAULT_COLORS : list (string * string);
  (** Whether [pygments.styles.get_style_by_name] knows the name. *)
  pygments_style_exists : string -> bool;
  (** The class [LogView] of [euporie.tabs.log]. *)
  LogView : TabClass
}.

Context {W : World}.

(** Modelled from the spec: the tab classes are not under src/.  "Tab:
    opaque workspace handle with identity [...] Created by a factory keyed
    on file-path/type": [tab_class(self, ppath)] is a new object that
    carries the path it was created for. *)
Definition new_tab (cls : TabClass) (ppath : option Path) : M Tab :=
  fun st =>
    (Ok (mkTab (next_id st) cls ppath), set_next_id (S (next_id st)) st).

(** Modelled from the spec: [Tab.focus()] is not under src/.  "Tab [...]
    a focus() operation": the tab asks the layout for the focus. *)
Definition Tab_focus (t : Tab) : M unit := layout_focus (FTab t).

(** [super().exit()]: prompt_toolkit's [Application.exit]. *)
Definition really_close : M unit := emit EvReallyClose.

(** Calling one of the closures of the close chain.  [Tab.close(cb)] is
    the event [EvTabClose] followed, when the tab closes, by the call of
    [cb]. *)
Fixpoint call (cb : Callback) : M unit :=
  match cb with
  | final_cb =>
      t <- tabs_getitem 0 ;;
      cleanup_closed_tab t ;;
      really_close
  | inner close_tab cleanup_tab cb' =>
      cleanup_closed_tab cleanup_tab ;;
      emit (EvTabClose close_tab cb') ;;
      if closes close_tab then call cb' else ret tt
  | cleanup_partial t => cleanup_closed_tab t
  end.

(** Modelled from the spec: [Tab.close] is not under src/.  "must expose
    close(callback) (invokes callback only on successful close; never
    invokes it if the user cancels)". *)
Definition Tab_close (t : Tab) (cb : Callback) : M unit :=
  emit (EvTabClose t cb) ;;
  if closes t then call cb else ret tt.

Definition close_tab (t : option Tab) : M unit :=
  t <- match t with
       | None => tab
       | Some t => ret (Some t)
       end ;;
  match t with
  | Some t => Tab_close t (cleanup_partial t)
  | None => ret tt
  end.

(** The loop of [TuiApp.exit]: [cb] starts as [final_cb], and for each
    pair [(close_tab, cleanup_tab)] of [zip(self.tabs, self.tabs[1:])] it
    becomes [create_cb(close_tab, cleanup_tab, cb)]. *)
Definition build_chain (ts : list Tab) : Callback :=
  fold_left
    (fun cb p => create_cb (fst p) (snd p) cb)
    (zip ts (tail ts))
    final_cb.

Definition TuiApp_exit : M unit :=
  ts <- gets tabs ;;
  match ts with
  | _ :: _ =>
      let cb := build_chain ts in
      t <- tabs_getitem (-1) ;;
      Tab_close t cb
  | [] => really_close
  end.

(** [self.exit()], by the class of the application. *)
Definition exit : M unit :=
  cls <- gets app_class ;;
  match cls with
  | TuiApp => TuiApp_exit
  | EuporieApp => really_close
  end.

(** [self.exit(exception=exception)]: [TuiApp.exit] does not use its
    keyword arguments. *)
Definition exit_exception (e : exn) : M unit :=
  cls <- gets app_class ;;
  match cls with
  | TuiApp => TuiApp_exit
  | EuporieApp => emit (EvExitWithException e)
  end.

(** ** Opening files *)

(** The loop [for tab in self.tabs] of [open_file], which compares [ppath]
    with the [path] attribute of each tab: whether it leaves through
    [break]. *)
Definition already_open (ppath : Path) (ts : list Tab) : bool :=
  existsb (fun t => bool_decide (tab_path t = Some ppath)) ts.

Definition open_file (path : string) : M unit :=
  let ppath := parse_path path in
  emit (EvLog (log_opening_file path)) ;;
  ts <- gets tabs ;;
  if already_open ppath ts then emit (EvLog (log_already_open path))
  else
    match get_file_tab path with
    | None => emit (EvLog (log_unable_to_display path))
    | Some tab_class =>
        t <- new_tab tab_class (Some ppath) ;;
        tabs_append t ;;
        Tab_focus t
    end.

Fixpoint open_each (fs : list string) : M unit :=
  match fs with
  | [] => ret tt
  | file :: fs' => open_file file ;; open_each fs'
  end.

Definition open_files : M unit :=
  fs <- gets (fun st => files (config st)) ;;
  open_each fs.

(** [TuiApp.help_logs] *)
Definition help_logs : M unit :=
  ts <- gets tabs ;;
  t <- match list_find (fun t => tab_class t = LogView) ts with
       | Some (_, t) => ret t
       | None =>
           t <- new_tab LogView None ;;
           tabs_append t ;;
           ret t
       end ;;
  layout_focus (FTab t).

(** ** Operations on the tab collection, as a client issues them *)

Inductive TabOp :=
| op_append (t : Tab)
| op_open_file (path : string)
| op_help_logs
| op_close_tab (t : option Tab)
| op_cleanup_closed_tab (t : Tab)
| op_set_tab_idx (value : Z)
| op_focus_tab (t : Tab)
| op_exit.

Definition run_op (o : TabOp) : M unit :=
  match o with
  | op_append t => tabs_append t
  | op_open_file path => open_file path
  | op_help_logs => help_logs
  | op_close_tab t => close_tab t
  | op_cleanup_closed_tab t => cleanup_closed_tab t
  | op_set_tab_idx value => set_tab_idx value
  | op_focus_tab t => focus_tab t
  | op_exit => exit
  end.

(** The application keeps running after an operation raised: the next
    operation starts from the state the failed one left. *)
Fixpoint run_ops (ops : list TabOp) (st : App) : App :=
  match ops with
  | [] => st
  | o :: ops' => run_ops ops' (snd (run_op o st))
  end.

(** ** Modal dialogs ([TuiApp.dialog]) *)

Definition fresh : M nat :=
  fun st => (Ok (next_id st), set_next_id (S (next_id st)) st).

(** Modelled from the spec: [add_float] is not under src/.  "push the
    dialog onto the owned overlay list (top of stack)". *)
Definition add_float (f : Float) : M unit :=
  modify (fun st => set_dialogs (dialogs st ++ [f]) st).

Fixpoint remove_float_from (fid : nat) (l : list Float) : list Float :=
  match l with
  | [] => []
  | f :: l' =>
      if decide (float_id f = fid) then l' else f :: remove_float_from fid l'
  end.

(** Modelled from the spec: [remove_float] is not under src/.  "pop the
    dialog from the overlay list". *)
Definition remove_float (fid : nat) : M unit :=
  modify (fun st => set_dialogs (remove_float_from fid (dialogs st)) st).

(** The body of the closure [inner] of [_make_handler]. *)
Definition handler_inner (h : Handler) : M unit :=
  remove_float (h_dialog_float h) ;;
  modify (set_has_dialog false) ;;
  controls <- gets (fun st => find_all_controls (layout st)) ;;
  (if bool_decide (h_focused h ∈ controls)
   then except_ValueError_pass (layout_focus (FControl (h_focused h)))
   else ret tt) ;;
  match h_cb h with
  | Some cb => run_callable cb
  | None => ret tt
  end.

Definition lower_ascii (c : Ascii.ascii) : Ascii.ascii :=
  let n := Ascii.nat_of_ascii c in
  if (65 <=? n)%nat && (n <=? 90)%nat then Ascii.ascii_of_nat (n + 32) else c.

(** [text[:1].lower()] *)
Definition first_char_lower (text : string) : string :=
  match text with
  | EmptyString => EmptyString
  | String c _ => String (lower_ascii c) EmptyString
  end.

(** The loop over [buttons.items()]: one [Button] widget per entry. *)
Fixpoint make_buttons (_make_handler : option Callable -> Handler)
    (buttons : list (string * option Callable)) : M (list Button) :=
  match buttons with
  | [] => ret []
  | (text, cb) :: rest =>
      w <- fresh ;;
      bs <- make_buttons _make_handler rest ;;
      ret (mkButton text (_make_handler cb) w :: bs)
  end.

Definition dialog (title : string) (body : Container)
    (buttons : list (string * option Callable))
    (to_focus : option FocusableElement) : M unit :=
  showing <- gets has_dialog ;;
  if showing then ret tt
  else
    focused <- gets (fun st => current_control (layout st)) ;;
    fid <- fresh ;;
    let _make_handler := mkHandler focused fid in
    button_widgets <- make_buttons _make_handler buttons ;;
    let kb :=
      mkKeyBinding "escape" (_make_handler None) false ::
      map (fun b =>
             mkKeyBinding (first_char_lower (button_text b))
               (button_handler b) true)
          button_widgets in
    let dialog_float := mkFloat fid title body button_widgets kb in
    add_float dialog_float ;;
    modify (set_has_dialog true) ;;
    to_focus <- match to_focus with
                | Some e => ret e
                | None =>
                    match button_widgets with
                    | b :: _ => ret (FContainer (button_widget b))
                    | [] => raise IndexError
                    end
                end ;;
    layout_focus to_focus ;;
    emit EvInvalidate.

(** ** Style recomputation ([EuporieApp.create_merged_style]) *)

Fixpoint dict_get {V} (k : string) (d : list (string * V)) : option V :=
  match d with
  | [] => None
  | (k', v) :: d' => if String.eqb k k' then Some v else dict_get k d'
  end.

(** [d[k] = v]: a present key keeps its position. *)
Fixpoint dict_set {V} (k : string) (v : V) (d : list (string * V))
    : list (string * V) :=
  match d with
  | [] => [(k, v)]
  | (k', v') :: d' =>
      if String.eqb k k' then (k, v) :: d' else (k', v') :: dict_set k v d'
  end.

(** [{**a, **b}] *)
Definition dict_merge {V} (a b : list (string * V)) : list (string * V) :=
  fold_left (fun d p => dict_set (fst p) (snd p) d) b a.

(** [d[k]] *)
Definition dict_getitem {V} (k : string) (d : list (string * V)) : M V :=
  match dict_get k d with
  | Some v => ret v
  | None => raise KeyError
  end.

Definition theme_colors (st : App) : list (string * list (string * string)) :=
  [ ("light", [("fg", "#202020"); ("bg", "#F0F0F0")]);
    ("dark", [("fg", "#F0F0F0"); ("bg", "#202020")]);
    ("white", [("fg", "#000000"); ("bg", "#FFFFFF")]);
    ("black", [("fg", "#FFFFFF"); ("bg", "#000000")]);
    ("default", colors_value (term_info st));
    ("custom", [("fg", custom_foreground_color (config st));
                ("bg", custom_background_color (config st))]) ]%string.

(** [ColorPalette.add_color(name, base, _base_override)] *)
Definition add_color (name base _base_override : string) : M unit :=
  modify (fun st =>
    set_color_palette
      (dict_set name (mkPaletteColor base _base_override) (color_palette st))
      st).

(** The loop over [base_colors.items()]. *)
Fixpoint add_colors (default : list (string * string))
    (items : list (string * string)) : M unit :=
  match items with
  | [] => ret tt
  | (name, color) :: rest =>
      base <- (if String.eqb color EmptyString then dict_getitem name default
               else ret color) ;;
      add_color name base
        (if String.eqb name "fg" || String.eqb name "bg"
         then "default"%string else name) ;;
      add_colors default rest
  end.

Definition base_colors_of (st : App) : list (string * string) :=
  let default := colors_value (term_info st) in
  dict_merge DEFAULT_COLORS
    (from_option id default
       (dict_get (color_scheme (config st)) (theme_colors st))).

Definition create_merged_style : M (list Style) :=
  default <- gets (fun st => colors_value (term_info st)) ;;
  base_colors <- gets base_colors_of ;;
  scheme <- gets (fun st => color_scheme (config st)) ;;
  modify (set_color_palette []) ;;
  add_colors default base_colors ;;
  palette <- gets color_palette ;;
  hl <- dict_getitem "ansiblue" palette ;;
  modify (fun st => set_color_palette (dict_set "hl" hl (color_palette st)) st) ;;
  palette <- gets color_palette ;;
  let app_style := build_style palette in
  fg <- dict_getitem "fg" base_colors ;;
  bg <- dict_getitem "bg" base_colors ;;
  modify (set_style_transformation
    [ mkConditional (SetDefaultColorStyleTransformation fg bg)
        (negb (String.eqb scheme "default"));
      mkConditional SwapLightAndDarkStyleTransformation
        (String.eqb scheme "inverse") ]) ;;
  theme <- gets (fun st => syntax_theme (config st)) ;;
  (if pygments_style_exists theme then ret tt
   else raise (ClassNotFound theme)) ;;
  ret [ style_from_pygments_cls theme; MIME_STYLE; MARKDOWN_STYLE;
        LOG_STYLE; IPYWIDGET_STYLE; app_style ].

Definition set_syntax_theme (v : string) (c : Config) : Config :=
  mkConfig (color_depth c) (color_scheme c) v (custom_foreground_color c)
    (custom_background_color c) (files c).

Definition set_color_scheme (v : string) (c : Config) : Config :=
  mkConfig (color_depth c) v (syntax_theme c) (custom_foreground_color c)
    (custom_background_color c) (files c).

Definition update_style (pygments_style color_scheme : option string)
    : M unit :=
  match pygments_style with
  | Some s => modify (fun st => set_config (set_syntax_theme s (config st)) st)
  | None => ret tt
  end ;;
  match color_scheme with
  | Some s => modify (fun st => set_config (set_color_scheme s (config st)) st)
  | None => ret tt
  end ;;
  s <- create_merged_style ;;
  modify (fun st =>
    set_renderer
      (mkRenderer (Some s) (_waiting_for_cpr_futures (renderer st))) st).

(** ** Start-up ([EuporieApp.pre_run]) *)

Definition _COLOR_DEPTHS (k : Z) : option ColorDepth :=
  if (k =? 1)%Z then Some DEPTH_1_BIT
  else if (k =? 4)%Z then Some DEPTH_4_BIT
  else if (k =? 8)%Z then Some DEPTH_8_BIT
  else if (k =? 24)%Z then Some DEPTH_24_BIT
  else None.

Definition load_key_bindings : M unit := emit EvLoadKeyBindings.

Definition load_container : M unit := emit EvLoadContainer.

Fixpoint call_each (cbs : list Callable) : M unit :=
  match cbs with
  | [] => ret tt
  | cb :: cbs' => run_callable cb ;; call_each cbs'
  end.

Definition EuporieApp_post_load : M unit :=
  cbs <- gets post_load_callables ;;
  call_each cbs.

(** [if self.tab: self.tab.focus()] reads the property twice; the second
    read returns what the first did (lemma [tab_read_twice]). *)
Definition TuiApp_post_load : M unit :=
  emit EvLoadClipboard ;;
  cur <- tab ;;
  match cur with
  | Some t => Tab_focus t
  | None => ret tt
  end ;;
  vt100 <- gets using_vt100 ;;
  if vt100 then
    emit (EvSubscribe background_color) ;;
    emit (EvSubscribe foreground_color) ;;
    emit (EvBackgroundTask _poll_terminal_colors)
  else ret tt.

Definition post_load : M unit :=
  cls <- gets app_class ;;
  match cls with
  | TuiApp => TuiApp_post_load
  | EuporieApp => EuporieApp_post_load
  end.

(** [self.renderer._waiting_for_cpr_futures.append(asyncio.Future())] *)
Definition futures_append : M unit :=
  modify (fun st =>
    set_renderer
      (mkRenderer (style (renderer st))
         (S (_waiting_for_cpr_futures (renderer st)))) st).

(** [self.renderer._waiting_for_cpr_futures.pop()] *)
Definition futures_pop : M unit :=
  n <- gets (fun st => _waiting_for_cpr_futures (renderer st)) ;;
  match n with
  | O => raise IndexError
  | S n' =>
      modify (fun st => set_renderer (mkRenderer (style (renderer st)) n') st)
  end.

(** The local function [terminal_ready] of [pre_run]. *)
Definition terminal_ready : M unit :=
  load_container ;;
  modify (fun st => set_layout (Layout_new (focused_element st)) st) ;;
  open_files ;;
  post_load ;;
  modify (set__is_running true) ;;
  futures_pop ;;
  emit EvRequestCursorPosition ;;
  emit EvInvalidate.

(** The coroutine [await_terminal_feedback], as the event loop runs it
    once it is scheduled. *)
Definition await_terminal_feedback_body : M unit :=
  fun st =>
    match
      (vt100 <- gets using_vt100 ;;
       (if vt100 then emit EvSendAll ;; emit EvSleep else ret tt) ;;
       terminal_ready) st
    with
    | (Raise e, st') => (emit (EvLog log_load_error) ;; exit_exception e) st'
    | r => r
    end.

(** The statements of [pre_run] before the definition of
    [terminal_ready]: key bindings, colour depth, style, and the two
    lines that block rendering. *)
Definition pre_run_setup : M unit :=
  load_key_bindings ;;
  modify (fun st =>
    set__color_depth
      (from_option id (depth_of_color_value (term_info st))
         (color_depth (config st) ≫= _COLOR_DEPTHS)) st) ;;
  update_style None None ;;
  emit (EvSubscribe colors) ;;
  modify (set__is_running false) ;;
  futures_append.

Definition pre_run : M unit :=
  pre_run_setup ;;
  closed <- gets input_closed ;;
  if closed then terminal_ready
  else emit (EvBackgroundTask await_terminal_feedback).

(** ** Commands and the status bar *)

(** The commands [next-tab] and [previous-tab]:
    [get_app().tab_idx += 1] and [get_app().tab_idx -= 1]. *)
Definition next_tab : M unit :=
  i <- tab_idx ;; set_tab_idx (i + 1).

Definition previous_tab : M unit :=
  i <- tab_idx ;; set_tab_idx (i - 1).

Definition Fragment : Type := string * string.

Inductive Part :=
| part_left
| part_right.

Section StatusBar.

(** A status field that is not a tuple: a string, an [HTML] object, a
    list of fragments.  Its truth value and its conversion by
    prompt_toolkit's [to_formatted_text(field, style=...)] belong to
    prompt_toolkit. *)
Variable FormattedText : Type.
Variable truthy : FormattedText -> bool.
Variable to_formatted_text : FormattedText -> string -> list Fragment.

(** [self.layout.has_focus(container)] for a registered container. *)
Variable container_has_focus : Layout -> Container -> bool.

Inductive Field :=
| field_tuple (fragment : Fragment)
| field_text (text : FormattedText).

(** [if field:] *)
Definition field_truthy (field : Field) : bool :=
  match field with
  | field_tuple _ => true
  | field_text text => truthy text
  end.

(** The first loop of [format_status]: the fields of the first registered
    container that has the focus; without one, [status_default] when no
    tab is open. *)
Definition status_entries
    (container_statuses : list (Container * (list Field * list Field)))
    (status_default : list Field * list Field)
    (st : App) : list Field * list Field :=
  match
    List.find (fun p => container_has_focus (layout st) (fst p))
      container_statuses
  with
  | Some (_, entries) => entries
  | None =>
      match tabs st with
      | [] => status_default
      | _ :: _ => ([], [])
      end
  end.

(** The fragments [ft] of a field. *)
Definition field_fragments (field : Field) : list Fragment :=
  match field with
  | field_tuple fragment => [fragment]
  | field_text text => to_formatted_text text "class:status.field"
  end.

(** One round of the second loop: what a field adds to [output]. *)
Definition status_field (output : list Fragment) (field : Field)
    : list Fragment :=
  if field_truthy field then
    let ft := field_fragments field in
    output ++
    [("class:status.field", " ")] ++ ft ++
    [("class:status.field", " "); ("class:status", " ")]
  else output.

(** [format_status(part)], given the registered statuses and the default
    of the class. *)
Definition format_status
    (container_statuses : list (Container * (list Field * list Field)))
    (status_default : list Field * list Field)
    (part : Part) (st : App) : list Fragment :=
  let entries := status_entries container_statuses status_default st in
  let fields :=
    match part with
    | part_left => fst entries
    | part_right => snd entries
    end in
  let output := fold_left status_field fields [] in
  match output with
  | [] => output
  | _ :: _ => removelast output
  end.

End StatusBar.

(** ** Vocabulary of the statements *)

(** An event that belongs to the terminal negotiation: a capability
    query, the wait for its answer, or the task that performs both. *)
Definition negotiation_event (e : Event) : bool :=
  match e with
  | EvSendAll | EvSleep | EvBackgroundTask await_terminal_feedback => true
  | _ => false
  end.

(** [m] leaves the value [f] of the application as it found it. *)
Definition keeps {A B} (f : App -> B) (m : M A) : Prop :=
  forall st, f (snd (m st)) = f st.

(** What [m] adds to the events holds no negotiation event. *)
Definition adds_no_negotiation_event {A} (m : M A) : Prop :=
  forall st,
    exists evs,
      events (snd (m st)) = events st ++ evs /\
      existsb negotiation_event evs = false.

(** [m] leaves the terminal queries alone: it keeps the values held by
    [term_info] and dispatches nothing. *)
Definition negotiation_free {A} (m : M A) : Prop :=
  keeps term_info m /\ adds_no_negotiation_event m.

(** [m] only reads the state, or writes fields other than [term_info],
    [input_closed] and [events]. *)
Definition silent {A} (m : M A) : Prop :=
  forall st,
    term_info (snd (m st)) = term_info st /\
    input_closed (snd (m st)) = input_closed st /\
    events (snd (m st)) = events st.

(** The tabs that were asked to close, in the order of the requests. *)
Definition close_requests (evs : list Event) : list Tab :=
  omap (fun e => match e with EvTabClose t _ => Some t | _ => None end) evs.

End Application.

Notation "x <- m ;; k" := (bind m (fun x => k))
  (at level 100, m at next level, right associativity).
Notation "m ;; k" := (bind m (fun _ => k))
  (at level 100, right associativity).

(** ** A small layout engine and sample applications

    Controls are numbered; the window of a tab carries the tab's
    [tab_id] as its control.  [focus] on a control or a container follows
    prompt_toolkit's [Layout.focus]: it raises [ValueError] unless the
    target appears in the layout and is focusable.  A tab can always take
    the focus. *)
Record SimpleLayout := mkSimpleLayout {
  sl_current : Control;
  sl_controls : list Control;
  sl_unfocusable : list Control
}.

Definition control_of (e : FocusableElement) : Control :=
  match e with
  | FTab t => tab_id t
  | FControl c => c
  | FContainer w => w
  end.

Definition sl_focusable (l : SimpleLayout) (c : Control) : bool :=
  bool_decide (c ∈ sl_controls l) && negb (bool_decide (c ∈ sl_unfocusable l)).

Definition sl_focus (e : FocusableElement) (l : SimpleLayout)
    : option SimpleLayout :=
  match e with
  | FTab t => Some (mkSimpleLayout (tab_id t) (sl_controls l) (sl_unfocusable l))
  | _ =>
      if sl_focusable l (control_of e)
      then Some (mkSimpleLayout (control_of e) (sl_controls l) (sl_unfocusable l))
      else None
  end.

Definition sl_focus_next (l : SimpleLayout) : option SimpleLayout :=
  match List.filter (sl_focusable l) (sl_controls l) with
  | c :: _ => Some (mkSimpleLayout c (sl_controls l) (sl_unfocusable l))
  | [] => None
  end.

#[global] Instance SimpleLayout_engine : LayoutEngine SimpleLayout := {
  Layout_new fe := mkSimpleLayout (from_option control_of 0 fe) [0] [];
  has_focus l t := bool_decide (sl_current l = tab_id t);
  focus := sl_focus;
  focus_next := sl_focus_next;
  current_control := sl_current;
  find_all_controls := sl_controls
}.

(** Sample collaborators: [closes] is given, every file gets a tab of
    class 7, and calling a callable requests a repaint. *)
Definition ex_world (closes : Tab -> bool) : World (Layout := SimpleLayout) := {|
  closes := closes;
  parse_path := fun p => p;
  get_file_tab := fun _ => Some 7;
  run_callable := fun _ => emit EvInvalidate;
  DEFAULT_COLORS :=
    [("bg", "#232627"); ("fg", "#fcfcfc"); ("ansiblue", "#1d99f3")]%string;
  pygments_style_exists := fun _ => true;
  LogView := 9
|}.

Definition ex_config : Config :=
  mkConfig None "inverse" "default" EmptyString EmptyString
    ["a.ipynb"; "b.ipynb"]%string.

Definition ex_term_info : TerminalInfo :=
  mkTerminalInfo [("fg", "#ffffff"); ("bg", "#000000")]%string DEPTH_8_BIT.

(** A [TuiApp] with the given tabs and layout, no dialog, and a closed
    input. *)
Definition ex_app (ts : list Tab) (l : SimpleLayout) : App :=
  mkApp ts 0 1 l None [] false ex_config ex_term_info (mkRenderer None 0)
    [] [] DEPTH_8_BIT true true false [] TuiApp 100 [].

(** The same application with an open input on a VT100 terminal. *)
Definition ex_interactive_app (ts : list Tab) (l : SimpleLayout) : App :=
  mkApp ts 0 1 l None [] false ex_config ex_term_info (mkRenderer None 0)
    [] [] DEPTH_8_BIT true false true [] TuiApp 100 [].

Definition tab_A : Tab := mkTab 1 7 (Some "a.ipynb"%string).
Definition tab_B : Tab := mkTab 2 7 (Some "b.ipynb"%string).
Definition tab_C : Tab := mkTab 3 7 (Some "c.ipynb"%string).

Definition ex_layout : SimpleLayout := mkSimpleLayout 0 [0; 5] [].

(** The tabs other than [t] close; [t] declines. *)
Definition all_but (t : Tab) : Tab -> bool :=
  fun t' => negb (bool_decide (t' = t)).

(** * Properties *)

Section Properties.

Context {Layout : Type} {LE : LayoutEngine Layout} {W : World (Layout := Layout)}.

#[local] Abbreviation App := (@App Layout).
#[local] Abbreviation M := (@M Layout).
#[local] Abbreviation negotiation_free := (@negotiation_free Layout).
#[local] Abbreviation adds_no_negotiation_event :=
  (@adds_no_negotiation_event Layout).
#[local] Abbreviation silent := (@silent Layout).

Implicit Types (st : App) (t : Tab) (ts : list Tab).

(** ** The monad *)

Lemma bind_Ok {A B} (m : M A) (k : A -> M B) st a st' :
  m st = (Ok a, st') -> bind m k st = k a st'.
Proof. intros H. unfold bind. rewrite H. reflexivity. Qed.

Lemma bind_Raise {A B} (m : M A) (k : A -> M B) st e st' :
  m st = (Raise e, st') -> bind m k st = (Raise e, st').
Proof. intros H. unfold bind. rewrite H. reflexivity. Qed.

Lemma getitem_in_range {A} (l : list A) (i : Z) :
  (0 <= i < Z.of_nat (length l))%Z ->
  exists a, getitem l i = Ok a /\ l !! Z.to_nat i = Some a.
Proof.
  intros Hi. unfold getitem.
  destruct (i <? 0)%Z eqn:E; [apply Z.ltb_lt in E; lia|].
  rewrite E.
  destruct (l !! Z.to_nat i) as [a|] eqn:El; [eauto|].
  apply lookup_ge_None in El. lia.
Qed.

Lemma focused_tab_index_bounds st ts i j :
  focused_tab_index st ts i = Some j ->
  (i <= j < i + Z.of_nat (length ts))%Z.
Proof.
  revert i. induction ts as [|t ts IH]; intros i H; simpl in *; [discriminate|].
  destruct ((0 <? render_counter st)%Z && has_focus (layout st) t).
  - inversion H. lia.
  - apply IH in H. lia.
Qed.

Lemma tab_empty st : tabs st = [] -> tab st = (Ok None, st).
Proof. intros H. unfold tab. rewrite H. reflexivity. Qed.

Lemma tab_nonempty st :
  tabs st <> [] ->
  exists t k,
    tab st = (Ok (Some t), set__tab_idx k st) /\
    (0 <= k < Z.of_nat (length (tabs st)))%Z /\
    tabs st !! Z.to_nat k = Some t.
Proof.
  intros Hne. unfold tab.
  destruct (tabs st) as [|t0 ts0] eqn:Ets; [congruence|].
  rewrite <- Ets.
  set (st1 := match focused_tab_index st (tabs st) 0%Z with
              | Some i => set__tab_idx i st | None => st end).
  assert (Hts1 : tabs st1 = tabs st)
    by (subst st1; destruct (focused_tab_index _ _ _); reflexivity).
  set (k := Z.max 0 (Z.min (_tab_idx st1) (Z.of_nat (length (tabs st1)) - 1))).
  assert (Hlen : (0 < Z.of_nat (length (tabs st)))%Z) by (rewrite Ets; simpl; lia).
  assert (Hk : (0 <= k < Z.of_nat (length (tabs st)))%Z) by (subst k; rewrite Hts1; lia).
  destruct (getitem_in_range (tabs st) k Hk) as (t & Hg & Hl).
  exists t, k. split; [|auto].
  unfold bind, tabs_getitem, ret. cbn [_tab_idx tabs set__tab_idx].
  rewrite Hts1, Hg.
  f_equal. subst st1. destruct (focused_tab_index _ _ _); reflexivity.
Qed.

Lemma focused_tab_index_set__tab_idx st (k : Z) ts (i : Z) :
  focused_tab_index (set__tab_idx k st) ts i = focused_tab_index st ts i.
Proof.
  revert i. induction ts as [|t ts IH]; intros i; [reflexivity|].
  cbn [focused_tab_index render_counter layout set__tab_idx].
  destruct ((0 <? render_counter st)%Z && has_focus (layout st) t);
    [reflexivity|apply IH].
Qed.

Lemma tab_unfold st :
  tabs st <> [] ->
  let k :=
    Z.max 0
      (Z.min (from_option id (_tab_idx st) (focused_tab_index st (tabs st) 0))
         (Z.of_nat (length (tabs st)) - 1)) in
  tab st = (t <- tabs_getitem k ;; ret (Some t)) (set__tab_idx k st).
Proof.
  intros Hne k. subst k. unfold tab.
  destruct (tabs st) as [|t0 ts0] eqn:Ets; [congruence|]. rewrite <- Ets.
  destruct (focused_tab_index st (tabs st) 0); reflexivity.
Qed.

(** Reading the [tab] property a second time returns the same tab and
    changes nothing more. *)
Lemma tab_read_twice st :
  tab (snd (tab st)) = (fst (tab st), snd (tab st)).
Proof.
  destruct (tabs st) as [|t0 ts0] eqn:Ets.
  - rewrite (tab_empty st Ets). cbn [fst snd]. apply tab_empty, Ets.
  - assert (Hne : tabs st <> []) by (rewrite Ets; discriminate).
    pose proof (tab_unfold st Hne) as E. cbv zeta in E.
    set (k := Z.max 0 (Z.min _ _)) in E.
    assert (Hk : (0 <= k < Z.of_nat (length (tabs st)))%Z).
    { subst k. rewrite Ets. cbn [length]. lia. }
    assert (Es : snd (tab st) = set__tab_idx k st).
    { rewrite E. unfold bind, tabs_getitem, ret.
      destruct (getitem _ _); reflexivity. }
    rewrite Es.
    assert (Hne' : tabs (set__tab_idx k st) <> []) by exact Hne.
    rewrite (tab_unfold _ Hne'). cbv zeta.
    rewrite focused_tab_index_set__tab_idx.
    cbn [tabs _tab_idx set__tab_idx].
    assert (Ek : Z.max 0
      (Z.min (from_option id k (focused_tab_index st (tabs st) 0))
         (Z.of_nat (length (tabs st)) - 1)) = k).
    { destruct (focused_tab_index st (tabs st) 0) as [i|] eqn:Ei;
        cbn [from_option id] in *; subst k; cbn [from_option id]; lia. }
    rewrite Ek. rewrite E.
    unfold bind, tabs_getitem, ret. cbn [tabs _tab_idx set__tab_idx].
    destruct (getitem (tabs st) k); reflexivity.
Qed.

(** C9: after any sequence of operations on the tab collection (append,
    open, close, cleanup, index changes, exit), reading the current tab of
    a non-empty collection settles on an index with
    [0 <= index < length] and returns the tab at that index, leaving the
    collection as it is; on an empty collection it returns no tab. *)
Theorem tab_index_in_range (ops : list TabOp) st :
  let st1 := run_ops ops st in
  (tabs st1 = [] -> tab st1 = (Ok None, st1)) /\
  (tabs st1 <> [] ->
   exists t,
     fst (tab st1) = Ok (Some t) /\
     tabs (snd (tab st1)) = tabs st1 /\
     (0 <= _tab_idx (snd (tab st1)) < Z.of_nat (length (tabs st1)))%Z /\
     tabs st1 !! Z.to_nat (_tab_idx (snd (tab st1))) = Some t).
Proof.
  intros st1. split.
  - apply tab_empty.
  - intros Hne. destruct (tab_nonempty st1 Hne) as (t & k & Ht & Hk & Hl).
    exists t. rewrite Ht. simpl. auto.
Qed.

Lemma set_tab_idx_empty (value : Z) st :
  tabs st = [] -> set_tab_idx value st = (Raise ZeroDivisionError, st).
Proof. intros H. unfold set_tab_idx. rewrite H. reflexivity. Qed.


Lemma list_remove_first_last t ts :
  t ∉ ts -> list_remove_first t (ts ++ [t]) = Some ts.
Proof.
  induction ts as [|y ts IH]; intros Hn; simpl.
  - destruct (decide (t = t)); congruence.
  - destruct (decide (t = y)) as [->|Hne].
    + exfalso. apply Hn. left.
    + rewrite IH; [reflexivity|]. intros Hin. apply Hn. right. exact Hin.
Qed.

Lemma getitem_last {A} (l : list A) (a : A) : getitem (l ++ [a]) (-1) = Ok a.
Proof.
  unfold getitem. rewrite length_app. simpl.
  replace (-1 <? 0)%Z with true by reflexivity.
  destruct ((-1 + Z.of_nat (length l + 1) <? 0)%Z) eqn:E.
  - apply Z.ltb_lt in E. lia.
  - replace (Z.to_nat (-1 + Z.of_nat (length l + 1))) with (length l + 0)%nat by lia.
    rewrite lookup_app_r by lia.
    replace (length l + 0 - length l)%nat with 0%nat by lia. reflexivity.
Qed.

Lemma build_chain_fold (f := fun cb (p : Tab * Tab) => create_cb (fst p) (snd p) cb)
    (l : list Tab) (x a b : Tab) (cb : Callback) :
  fold_left f (zip (x :: l ++ [a; b]) (l ++ [a; b])) cb =
  inner a b (fold_left f (zip (x :: l ++ [a]) (l ++ [a])) cb).
Proof.
  revert x cb. induction l as [|y l IH]; intros x cb.
  - reflexivity.
  - simpl. apply (IH y).
Qed.

Lemma build_chain_snoc (pre : list Tab) (a b : Tab) :
  build_chain (pre ++ [a; b]) = inner a b (build_chain (pre ++ [a])).
Proof.
  destruct pre as [|x pre].
  - reflexivity.
  - unfold build_chain. simpl. apply build_chain_fold.
Qed.

Lemma call_inner (close_tab cleanup_tab : Tab) (cb : Callback) :
  call (inner close_tab cleanup_tab cb) =
  (cleanup_closed_tab cleanup_tab ;; Tab_close close_tab cb).
Proof. reflexivity. Qed.

Lemma TuiApp_exit_nonempty pre a st :
  tabs st = pre ++ [a] ->
  TuiApp_exit st = Tab_close a (build_chain (tabs st)) st.
Proof.
  intros H.
  assert (Hg : tabs_getitem (-1) st = (Ok a, st)).
  { unfold tabs_getitem. rewrite H, getitem_last. reflexivity. }
  unfold TuiApp_exit, bind, gets. cbn beta iota.
  destruct (tabs st) as [|x l] eqn:E.
  - destruct pre; discriminate.
  - rewrite Hg. reflexivity.
Qed.

Lemma TuiApp_exit_declines pre a st :
  tabs st = pre ++ [a] ->
  closes a = false ->
  TuiApp_exit st =
  (Ok tt, set_events (events st ++ [EvTabClose a (build_chain (tabs st))]) st).
Proof.
  intros H Hc. rewrite (TuiApp_exit_nonempty pre a st H).
  unfold Tab_close, bind, emit, modify. rewrite Hc. reflexivity.
Qed.

Section CloseChain.

(** The layout accepts the focus request for a tab. *)
Hypothesis focus_tab_ok : forall t (l : Layout), is_Some (focus (FTab t) l).

Lemma cleanup_closed_tab_last pre a st :
  tabs st = pre ++ [a] ->
  a ∉ pre ->
  exists st1,
    cleanup_closed_tab a st = (Ok tt, st1) /\
    tabs st1 = pre /\
    events st1 = events st /\
    app_class st1 = app_class st.
Proof.
  intros Ht Hn. unfold cleanup_closed_tab.
  assert (Hrm : tabs_remove a st = (Ok tt, set_tabs pre st)).
  { unfold tabs_remove. rewrite Ht, list_remove_first_last by exact Hn. reflexivity. }
  rewrite (bind_Ok _ _ _ _ _ Hrm).
  destruct pre as [|x pre'] eqn:Epre.
  - rewrite (bind_Ok _ _ _ _ _ (tab_empty (set_tabs [] st) eq_refl)).
    unfold except_ValueError_pass, layout_focus_next.
    cbn [layout set_tabs].
    destruct (focus_next (layout st)); eexists; (split; [reflexivity|]); cbn; auto.
  - rewrite <- Epre in *.
    assert (Hne : tabs (set_tabs pre st) <> []) by (cbn; rewrite Epre; discriminate).
    destruct (tab_nonempty _ Hne) as (t & k & Htab & _ & _).
    rewrite (bind_Ok _ _ _ _ _ Htab).
    unfold layout_focus. cbn [layout set_tabs set__tab_idx].
    destruct (focus_tab_ok t (layout st)) as [l Hl]. rewrite Hl.
    eexists; (split; [reflexivity|]); cbn; auto.
Qed.

Lemma TuiApp_exit_step pre b a st :
  tabs st = pre ++ [b; a] ->
  NoDup (tabs st) ->
  closes a = true ->
  exists st1,
    TuiApp_exit st = TuiApp_exit st1 /\
    tabs st1 = pre ++ [b] /\
    events st1 = events st ++ [EvTabClose a (build_chain (tabs st))].
Proof.
  intros Ht Hnd Hc.
  assert (Ht' : tabs st = (pre ++ [b]) ++ [a]) by (rewrite Ht, <- app_assoc; reflexivity).
  rewrite (TuiApp_exit_nonempty _ _ _ Ht').
  assert (Hn : a ∉ pre ++ [b]).
  { rewrite Ht' in Hnd. apply NoDup_app in Hnd as (_ & Hd & _).
    intros Hin. apply (Hd a Hin). left. }
  set (st0 := set_events (events st ++ [EvTabClose a (build_chain (tabs st))]) st).
  destruct (cleanup_closed_tab_last (pre ++ [b]) a st0 Ht' Hn) as (st1 & Hcl & Ht1 & He1 & _).
  exists st1. split; [|split; [exact Ht1|rewrite He1; reflexivity]].
  rewrite (TuiApp_exit_nonempty _ _ _ Ht1), Ht1.
  unfold Tab_close at 1. unfold bind at 1, emit, modify. fold st0.
  rewrite Hc, Ht, build_chain_snoc, call_inner.
  rewrite (bind_Ok _ _ _ _ _ Hcl). reflexivity.
Qed.

Lemma TuiApp_exit_last_closes a st :
  tabs st = [a] ->
  closes a = true ->
  exists st1,
    TuiApp_exit st = (Ok tt, st1) /\
    tabs st1 = [] /\
    events st1 =
      events st ++ [EvTabClose a final_cb; EvReallyClose].
Proof.
  intros Ht Hc. rewrite (TuiApp_exit_nonempty [] a st Ht), Ht.
  set (st0 := set_events (events st ++ [EvTabClose a final_cb]) st).
  destruct (cleanup_closed_tab_last [] a st0 Ht) as (st1 & Hcl & Ht1 & He1 & _).
  { apply not_elem_of_nil. }
  exists (set_events (events st1 ++ [EvReallyClose]) st1).
  split; [|split].
  - unfold Tab_close, build_chain. cbn [zip_with tail fold_left].
    unfold bind at 1, emit, modify. fold st0. rewrite Hc.
    cbn [call]. unfold bind at 1, tabs_getitem.
    replace (getitem (tabs st0) 0) with (Ok a) by (cbn; rewrite Ht; reflexivity).
    rewrite (bind_Ok _ _ _ _ _ Hcl). reflexivity.
  - exact Ht1.
  - cbn. rewrite He1. cbn. rewrite <- app_assoc. reflexivity.
Qed.

Lemma list_snoc_inv {A} (l : list A) :
  l <> [] -> exists pre b, l = pre ++ [b].
Proof.
  intros H. destruct l as [|x l] using rev_ind; [congruence|].
  exists l, x. reflexivity.
Qed.

(** Every tab closes: the chain removes them all, last to first, and the
    real exit is the last call. *)
Lemma TuiApp_exit_all_close ts :
  forall st,
    tabs st = ts ->
    ts <> [] ->
    NoDup ts ->
    Forall (fun t => closes t = true) ts ->
    exists st' evs,
      TuiApp_exit st = (Ok tt, st') /\
      tabs st' = [] /\
      events st' = events st ++ evs ++ [EvReallyClose] /\
      Forall (fun e => exists t cb, e = EvTabClose t cb /\ t ∈ ts) evs.
Proof.
  induction ts as [|a l IH] using rev_ind; intros st Ht Hne Hnd Hall;
    [congruence|].
  apply Forall_app in Hall as [Hl Ha].
  apply Forall_cons in Ha as [Ha _].
  destruct (decide (l = [])) as [->|Hl0].
  - destruct (TuiApp_exit_last_closes a st Ht Ha)
      as (st1 & E & Ht1 & He1).
    exists st1, [EvTabClose a final_cb].
    split; [exact E|]. split; [exact Ht1|]. split; [exact He1|].
    apply Forall_cons. split; [|apply Forall_nil_2].
    exists a, final_cb. split; [reflexivity|left].
  - destruct (list_snoc_inv l Hl0) as (pre & b & ->).
    assert (Ht' : tabs st = pre ++ [b; a])
      by (rewrite Ht, <- app_assoc; reflexivity).
    assert (Hnd0 : NoDup (tabs st)) by (rewrite Ht; exact Hnd).
    destruct (TuiApp_exit_step pre b a st Ht' Hnd0 Ha)
      as (st1 & E & Ht1 & He1).
    apply NoDup_app in Hnd as (Hnd & _ & _).
    destruct (IH st1 Ht1 Hl0 Hnd Hl) as (st' & evs & E' & Ht2 & He2 & Hev).
    exists st', (EvTabClose a (build_chain (tabs st)) :: evs).
    split; [rewrite E; exact E'|]. split; [exact Ht2|]. split.
    + rewrite He2, He1, <- app_assoc. reflexivity.
    + apply Forall_cons. split.
      * exists a, (build_chain (tabs st)). split; [reflexivity|].
        apply elem_of_app. right. left.
      * eapply Forall_impl; [exact Hev|].
        intros e (t & cb & -> & Hin). exists t, cb. split; [reflexivity|].
        apply elem_of_app. left. exact Hin.
Qed.

(** A tab declines: the tabs after it have been removed, the tabs before
    it are never asked to close, and the real exit is not called. *)
Lemma TuiApp_exit_halts (l2 : list Tab) :
  forall (l1 : list Tab) (d : Tab) st,
    tabs st = l1 ++ d :: l2 ->
    NoDup (tabs st) ->
    closes d = false ->
    Forall (fun t => closes t = true) l2 ->
    exists st' evs,
      TuiApp_exit st = (Ok tt, st') /\
      tabs st' = l1 ++ [d] /\
      events st' = events st ++ evs /\
      Forall (fun e => exists t cb, e = EvTabClose t cb /\ t ∈ d :: l2) evs.
Proof.
  induction l2 as [|a l2 IH] using rev_ind; intros l1 d st Ht Hnd Hd Hall.
  - exists (set_events (events st ++ [EvTabClose d (build_chain (tabs st))]) st),
      [EvTabClose d (build_chain (tabs st))].
    split; [exact (TuiApp_exit_declines l1 d st Ht Hd)|].
    split; [exact Ht|]. split; [reflexivity|].
    apply Forall_cons. split; [|apply Forall_nil_2].
    eexists _, _. split; [reflexivity|left].
  - apply Forall_app in Hall as [Hl Ha].
    apply Forall_cons in Ha as [Ha _].
    assert (Hne : l1 ++ d :: l2 <> []) by (destruct l1; discriminate).
    destruct (list_snoc_inv _ Hne) as (pre & b & Epre).
    assert (Ht' : tabs st = pre ++ [b; a]).
    { rewrite Ht. change (d :: l2 ++ [a]) with ((d :: l2) ++ [a]).
      rewrite app_assoc, Epre, <- app_assoc. reflexivity. }
    destruct (TuiApp_exit_step pre b a st Ht' Hnd Ha)
      as (st1 & E & Ht1 & He1).
    rewrite <- Epre in Ht1.
    assert (Hnd1 : NoDup (tabs st1)).
    { rewrite Ht1. rewrite Ht in Hnd.
      change (d :: l2 ++ [a]) with ((d :: l2) ++ [a]) in Hnd.
      rewrite app_assoc in Hnd. apply NoDup_app in Hnd as (Hnd & _ & _).
      exact Hnd. }
    destruct (IH l1 d st1 Ht1 Hnd1 Hd Hl) as (st' & evs & E' & Ht2 & He2 & Hev).
    exists st', (EvTabClose a (build_chain (tabs st)) :: evs).
    split; [rewrite E; exact E'|]. split; [exact Ht2|]. split.
    + rewrite He2, He1, <- app_assoc. reflexivity.
    + apply Forall_cons. split.
      * eexists _, _. split; [reflexivity|].
        right. apply elem_of_app. right. left.
      * eapply Forall_impl; [exact Hev|].
        intros e (t & cb & -> & Hin). exists t, cb. split; [reflexivity|].
        apply elem_of_cons in Hin as [->|Hin]; [left|].
        right. apply elem_of_app. left. exact Hin.
Qed.

(** C1 (amended): with the distinct tabs [A; B; C] open, shutdown asks the
    tabs to close from the last to the first.  If [C] declines, the
    collection keeps all three tabs, [A] and [B] are not asked to close
    and the real exit is not called.  If [C] and [B] close and [A]
    declines, the collection is exactly [A] and the real exit is not
    called. *)
Theorem exit_three_tabs (A B C : Tab) st :
  tabs st = [A; B; C] ->
  NoDup [A; B; C] ->
  (closes C = false ->
   TuiApp_exit st =
   (Ok tt,
    set_events
      (events st ++ [EvTabClose C (inner B C (inner A B final_cb))]) st)) /\
  (closes C = true -> closes B = true -> closes A = false ->
   exists st',
     TuiApp_exit st = (Ok tt, st') /\
     tabs st' = [A] /\
     events st' =
       events st ++
       [ EvTabClose C (inner B C (inner A B final_cb));
         EvTabClose B (inner A B final_cb);
         EvTabClose A final_cb ]).
Proof.
  intros Ht Hnd. split.
  - intros HC. rewrite (TuiApp_exit_declines [A; B] C st Ht HC), Ht. reflexivity.
  - intros HC HB HA.
    assert (Hnd0 : NoDup (tabs st)) by (rewrite Ht; exact Hnd).
    destruct (TuiApp_exit_step [A] B C st Ht Hnd0 HC)
      as (st1 & E1 & Ht1 & He1).
    assert (Hnd1 : NoDup (tabs st1)).
    { rewrite Ht1. change [A; B; C] with ([A; B] ++ [C]) in Hnd.
      apply NoDup_app in Hnd as (Hnd & _). exact Hnd. }
    destruct (TuiApp_exit_step [] A B st1 Ht1 Hnd1 HB)
      as (st2 & E2 & Ht2 & He2).
    exists (set_events (events st2 ++ [EvTabClose A (build_chain (tabs st2))]) st2).
    split; [|split].
    + rewrite E1, E2. apply (TuiApp_exit_declines [] A st2 Ht2 HA).
    + exact Ht2.
    + cbn [events set_events]. rewrite He2, He1, Ht, Ht1, Ht2.
      rewrite <- !app_assoc. reflexivity.
Qed.
End CloseChain.


(** C4 (amended): [TuiApp.exit] keeps no record of a chain in flight.
    While the last tab has not answered, each shutdown request builds a
    chain over the current tabs and asks the last tab to close: two
    requests in a row issue the close request twice. *)
Theorem exit_builds_a_chain_each_time (pre : list Tab) (a : Tab) st :
  tabs st = pre ++ [a] ->
  closes a = false ->
  let request := EvTabClose a (build_chain (tabs st)) in
  let st1 := snd (TuiApp_exit st) in
  TuiApp_exit st = (Ok tt, set_events (events st ++ [request]) st) /\
  TuiApp_exit st1 = (Ok tt, set_events (events st1 ++ [request]) st1) /\
  events (snd (TuiApp_exit st1)) = events st ++ [request; request].
Proof.
  intros Ht Hc request st1.
  assert (E : TuiApp_exit st = (Ok tt, set_events (events st ++ [request]) st))
    by exact (TuiApp_exit_declines pre a st Ht Hc).
  assert (Ht1 : tabs st1 = pre ++ [a]) by (subst st1; rewrite E; exact Ht).
  assert (E1 : TuiApp_exit st1 = (Ok tt, set_events (events st1 ++ [request]) st1)).
  { rewrite (TuiApp_exit_declines pre a st1 Ht1 Hc). subst request.
    rewrite Ht1, Ht. reflexivity. }
  split; [exact E|split; [exact E1|]].
  rewrite E1. subst st1. rewrite E. cbn. rewrite <- app_assoc. reflexivity.
Qed.

(** C8: with an empty tab collection, shutdown calls the real exit within
    the call; no tab is asked to close and nothing else changes. *)
Theorem exit_without_tabs st :
  tabs st = [] ->
  TuiApp_exit st = (Ok tt, set_events (events st ++ [EvReallyClose]) st).
Proof.
  intros Ht. unfold TuiApp_exit, bind, gets. cbn beta iota. rewrite Ht.
  reflexivity.
Qed.

Lemma already_open_spec (ppath : Path) ts :
  already_open ppath ts = true <->
  exists t, t ∈ ts /\ tab_path t = Some ppath.
Proof.
  unfold already_open. rewrite existsb_exists. split.
  - intros (t & Hin & Hp). exists t. split.
    + apply list_elem_of_In. exact Hin.
    + apply bool_decide_eq_true in Hp. exact Hp.
  - intros (t & Hin & Hp). exists t. split.
    + apply list_elem_of_In. exact Hin.
    + apply bool_decide_eq_true. exact Hp.
Qed.

Lemma open_file_already_open (path : string) st :
  already_open (parse_path path) (tabs st) = true ->
  open_file path st =
  (Ok tt,
   set_events
     (events st ++
      [EvLog (log_opening_file path); EvLog (log_already_open path)]) st).
Proof.
  intros H. unfold open_file, bind, emit, modify, gets. cbn -[already_open].
  rewrite H. cbn. rewrite <- app_assoc. reflexivity.
Qed.

Lemma already_open_app (ppath : Path) ts t :
  tab_path t = Some ppath -> already_open ppath (ts ++ [t]) = true.
Proof.
  intros H. apply already_open_spec. exists t. split; [|exact H].
  apply elem_of_app. right. left.
Qed.

(** C10: opening a file whose parsed path is the path of an open tab
    changes nothing but the log: no tab is created, appended or focused.
    Opening the same path twice in a row leaves the same tab list as
    opening it once. *)
Theorem open_file_same_path (path : string) st :
  ((exists t, t ∈ tabs st /\ tab_path t = Some (parse_path path)) ->
   open_file path st =
   (Ok tt,
    set_events
      (events st ++
       [EvLog (log_opening_file path); EvLog (log_already_open path)]) st)) /\
  tabs (snd (open_file path (snd (open_file path st)))) =
  tabs (snd (open_file path st)).
Proof.
  split.
  - intros H. apply open_file_already_open, already_open_spec, H.
  - destruct (already_open (parse_path path) (tabs st)) eqn:E.
    + rewrite (open_file_already_open path st E). cbn [snd].
      rewrite open_file_already_open by exact E. reflexivity.
    + unfold open_file at 2 3. unfold bind, emit, modify, gets.
      cbn -[already_open open_file]. rewrite E.
      destruct (get_file_tab path) as [cls|] eqn:G.
      * unfold new_tab, tabs_append, modify, Tab_focus, layout_focus.
        cbn -[already_open open_file].
        set (t := mkTab (next_id st) cls (Some (parse_path path))).
        destruct (focus (FTab t) (layout st)); cbn [snd];
          rewrite open_file_already_open; try reflexivity;
          cbn; apply already_open_app; reflexivity.
      * cbn [snd]. unfold open_file, bind, emit, modify, gets.
        cbn -[already_open]. rewrite E, G. reflexivity.
Qed.

(** C2: while a dialog is active, showing a dialog returns normally and
    leaves the whole application (overlay list, flag, layout and focus)
    as it was. *)
Theorem dialog_noop_when_showing (title : string) (body : Container)
    (buttons : list (string * option Callable))
    (to_focus : option FocusableElement) st :
  has_dialog st = true ->
  dialog title body buttons to_focus st = (Ok tt, st).
Proof.
  intros H. unfold dialog, bind, gets. cbn beta iota. rewrite H. reflexivity.
Qed.

Lemma remove_float_from_not_in (fid : nat) (ds : list Float) :
  NoDup (float_id <$> ds) ->
  fid ∉ float_id <$> remove_float_from fid ds.
Proof.
  induction ds as [|f ds IH]; intros Hnd; simpl.
  - apply not_elem_of_nil.
  - apply NoDup_cons in Hnd as [Hf Hnd].
    destruct (decide (float_id f = fid)) as [<-|Hne].
    + exact Hf.
    + simpl. apply not_elem_of_cons. split; [congruence|apply IH, Hnd].
Qed.

Lemma make_buttons_spec (mk : option Callable -> Handler)
    (buttons : list (string * option Callable)) st :
  exists bs,
    make_buttons mk buttons st =
      (Ok bs, set_next_id (length buttons + next_id st) st) /\
    map button_text bs = map fst buttons /\
    map button_handler bs = map (fun p => mk (snd p)) buttons.
Proof.
  revert st. induction buttons as [|[text cb] rest IH]; intros st.
  - exists []. split; [|auto]. destruct st. reflexivity.
  - cbn [make_buttons]. unfold bind at 1, fresh.
    destruct (IH (set_next_id (S (next_id st)) st)) as (bs & E & Ht & Hh).
    exists (mkButton text (mk cb) (next_id st) :: bs).
    split; [|split].
    + unfold bind. rewrite E. unfold ret. f_equal.
      cbn [next_id set_next_id length].
      replace (length rest + S (next_id st)) with (S (length rest) + next_id st)
        by lia.
      reflexivity.
    + cbn. rewrite Ht. reflexivity.
    + cbn. rewrite Hh. reflexivity.
Qed.

(** Showing a dialog when none is active: the dialog goes on top of the
    overlay list, the flag is set, and every handler of the dialog holds
    the control that had the focus and the identity of the dialog. *)
Lemma dialog_shows (title : string) (body : Container)
    (buttons : list (string * option Callable))
    (to_focus : option FocusableElement) st :
  has_dialog st = false ->
  buttons <> [] ->
  exists f,
    dialogs (snd (dialog title body buttons to_focus st)) = dialogs st ++ [f] /\
    has_dialog (snd (dialog title body buttons to_focus st)) = true /\
    float_id f = next_id st /\
    map button_text (float_buttons f) = map fst buttons /\
    Forall (fun h => h_focused h = current_control (layout st) /\
                     h_dialog_float h = float_id f)
      (map button_handler (float_buttons f) ++
       map kb_handler (float_key_bindings f)) /\
    map (fun b => h_cb (button_handler b)) (float_buttons f) = map snd buttons.
Proof.
  intros Hd Hne.
  destruct (dialog title body buttons to_focus st) as [o st'] eqn:E.
  cbn [snd]. unfold dialog in E.
  unfold bind at 1, gets at 1 in E. cbn beta iota in E. rewrite Hd in E.
  unfold bind at 1, gets at 1 in E. cbn beta iota in E.
  unfold bind at 1, fresh at 1 in E. cbn beta iota in E.
  set (focused := current_control (layout st)) in *.
  set (fid := next_id st) in *.
  set (st1 := set_next_id (S fid) st) in *.
  destruct (make_buttons_spec (mkHandler focused fid) buttons st1)
    as (bs & Eb & Ht & Hh).
  unfold bind at 1 in E. rewrite Eb in E.
  set (kb := mkKeyBinding "escape" _ _ :: _) in E.
  set (f := mkFloat fid title body bs kb) in E.
  exists f.
  assert (Hbs : bs <> []).
  { intros ->. destruct buttons; [congruence|discriminate]. }
  assert (Hhandlers :
    Forall (fun h => h_focused h = focused /\ h_dialog_float h = fid)
      (map button_handler bs)).
  { rewrite Hh. apply Forall_forall. intros h Hin.
    apply list_elem_of_fmap in Hin as (p & -> & _). split; reflexivity. }
  assert (Hst : dialogs st' = dialogs st ++ [f] /\ has_dialog st' = true).
  { unfold bind, add_float, modify, layout_focus, emit, ret, raise in E.
    cbn [dialogs set_dialogs set_has_dialog layout set_next_id has_dialog] in E.
    destruct to_focus as [e|]; [|destruct bs as [|b bs']; [congruence|]];
      match type of E with
      | context [focus ?x ?l] => destruct (focus x l)
      end; unfold modify in E; injection E as <- <-; cbn; auto. }
  destruct Hst as [Hst1 Hst2].
  split; [exact Hst1|]. split; [exact Hst2|]. split; [reflexivity|].
  split; [exact Ht|]. split.
  - apply Forall_app. split; [exact Hhandlers|].
    subst f kb. cbn [float_key_bindings map kb_handler].
    apply Forall_cons. split; [split; reflexivity|].
    rewrite map_map. cbn [kb_handler]. exact Hhandlers.
  - cbn [float_buttons f].
    rewrite <- (map_map button_handler h_cb), Hh, map_map. reflexivity.
Qed.

Lemma remove_float_from_fresh (f : Float) (ds : list Float) :
  float_id f ∉ float_id <$> ds ->
  remove_float_from (float_id f) (ds ++ [f]) = ds.
Proof.
  induction ds as [|g ds IH]; intros Hn; simpl.
  - destruct (decide (float_id f = float_id f)); congruence.
  - apply not_elem_of_cons in Hn as [Hne Hn].
    destruct (decide (float_id g = float_id f)); [congruence|].
    rewrite IH by exact Hn. reflexivity.
Qed.
(** C5 (amended): dismissing a dialog removes it from the overlay list and
    clears the flag; the layout is asked to focus the control captured
    when the dialog was shown if and only if that control is still in the
    layout; an accepted request moves the focus there, a refused one
    ([ValueError]) or a missing control leaves the layout as it is, with
    no error; the button's callback, if any, runs on the state reached
    after that step. *)
Theorem handler_inner_dismisses (h : Handler) st :
  let present := h_focused h ∈ find_all_controls (layout st) in
  exists st2,
    handler_inner h st =
      match h_cb h with
      | Some cb => run_callable cb st2
      | None => (Ok tt, st2)
      end /\
    dialogs st2 = remove_float_from (h_dialog_float h) (dialogs st) /\
    (NoDup (float_id <$> dialogs st) ->
     h_dialog_float h ∉ float_id <$> dialogs st2) /\
    has_dialog st2 = false /\
    tabs st2 = tabs st /\
    events st2 = events st /\
    (~ present -> layout st2 = layout st) /\
    (present ->
     forall l, focus (FControl (h_focused h)) (layout st) = Some l ->
               layout st2 = l) /\
    (present ->
     focus (FControl (h_focused h)) (layout st) = None ->
     layout st2 = layout st).
Proof.
  intros present.
  set (st1 := set_has_dialog false
                (set_dialogs (remove_float_from (h_dialog_float h) (dialogs st)) st)).
  set (st2 := if bool_decide present
              then match focus (FControl (h_focused h)) (layout st) with
                   | Some l => set_layout l st1
                   | None => st1
                   end
              else st1).
  exists st2.
  assert (Hd : dialogs st2 = remove_float_from (h_dialog_float h) (dialogs st)).
  { subst st2. destruct (bool_decide present); [|reflexivity].
    destruct (focus _ _); reflexivity. }
  split; [|split; [exact Hd|split; [|split; [|split; [|split; [|split; [|split]]]]]]].
  - unfold handler_inner, bind, remove_float, modify, gets.
    cbn [layout set_has_dialog set_dialogs]. fold present. fold st1.
    subst st2. destruct (bool_decide present).
    + unfold except_ValueError_pass, layout_focus. cbn [layout st1 set_has_dialog set_dialogs].
      destruct (focus (FControl (h_focused h)) (layout st));
        destruct (h_cb h); reflexivity.
    + destruct (h_cb h); reflexivity.
  - intros Hnd. rewrite Hd. apply remove_float_from_not_in, Hnd.
  - subst st2. destruct (bool_decide present); [|reflexivity].
    destruct (focus _ _); reflexivity.
  - subst st2. destruct (bool_decide present); [|reflexivity].
    destruct (focus _ _); reflexivity.
  - subst st2. destruct (bool_decide present); [|reflexivity].
    destruct (focus _ _); reflexivity.
  - intros Hn. subst st2. rewrite bool_decide_eq_false_2 by exact Hn. reflexivity.
  - intros Hp l Hl. subst st2. rewrite bool_decide_eq_true_2 by exact Hp.
    rewrite Hl. reflexivity.
  - intros Hp Hl. subst st2. rewrite bool_decide_eq_true_2 by exact Hp.
    rewrite Hl. reflexivity.
Qed.

Lemma add_colors_outcome (default items : list (string * string)) st :
  fst (add_colors default items st) = Ok tt \/
  fst (add_colors default items st) = Raise KeyError.
Proof.
  revert st. induction items as [|[name color] items IH]; intros st.
  - left. reflexivity.
  - cbn [add_colors]. unfold bind at 1.
    destruct (String.eqb color EmptyString).
    + unfold dict_getitem. destruct (dict_get name default).
      * cbn. apply IH.
      * right. reflexivity.
    + cbn. apply IH.
Qed.

Lemma create_merged_style_cases st (r : outcome (list Style)) st' :
  create_merged_style st = (r, st') ->
  r = Raise KeyError \/
  exists fg bg,
    dict_get "fg" (base_colors_of st) = Some fg /\
    dict_get "bg" (base_colors_of st) = Some bg /\
    style_transformation st' =
      [ mkConditional (SetDefaultColorStyleTransformation fg bg)
          (negb (String.eqb (color_scheme (config st)) "default"));
        mkConditional SwapLightAndDarkStyleTransformation
          (String.eqb (color_scheme (config st)) "inverse") ].
Proof.
  intros E.
  unfold create_merged_style, bind, gets, modify, dict_getitem, ret, raise in E.
  cbn beta iota in E.
  set (base := base_colors_of st) in *.
  set (st0 := set_color_palette [] st) in *.
  pose proof (add_colors_outcome (colors_value (term_info st)) base st0) as Hac.
  destruct (add_colors (colors_value (term_info st)) base st0) as [[[]|e] st1];
    cbn [fst] in Hac.
  2:{ destruct Hac as [Hac|Hac]; [discriminate|].
      injection Hac as ->. injection E as <- <-. left. reflexivity. }
  clear Hac.
  destruct (dict_get "ansiblue" (color_palette st1)) as [hl|].
  2:{ injection E as <- <-. left. reflexivity. }
  destruct (dict_get "fg" base) as [fg|].
  2:{ injection E as <- <-. left. reflexivity. }
  destruct (dict_get "bg" base) as [bg|].
  2:{ injection E as <- <-. left. reflexivity. }
  right. exists fg, bg.
  split; [reflexivity|split; [reflexivity|]].
  match type of E with
  | context [pygments_style_exists ?x] => destruct (pygments_style_exists x)
  end; injection E as <- <-; reflexivity.
Qed.

(** C7: whenever the style is recomputed (the palette lookups raise no
    [KeyError]), [style_transformation] holds exactly two conditional
    transformations, in this order: the forced default colours, active if
    and only if the colour scheme is not "default", then the swap of
    light and dark, active if and only if the scheme is "inverse"; with
    "inverse" both are active. *)
Theorem create_merged_style_transformations st :
  fst (create_merged_style st) <> Raise KeyError ->
  let scheme := color_scheme (config st) in
  exists fg bg active_default active_swap,
    dict_get "fg" (base_colors_of st) = Some fg /\
    dict_get "bg" (base_colors_of st) = Some bg /\
    style_transformation (snd (create_merged_style st)) =
      [ mkConditional (SetDefaultColorStyleTransformation fg bg) active_default;
        mkConditional SwapLightAndDarkStyleTransformation active_swap ] /\
    (active_default = true <-> scheme <> "default"%string) /\
    (active_swap = true <-> scheme = "inverse"%string) /\
    (scheme = "inverse"%string -> active_default = true /\ active_swap = true).
Proof.
  intros Hok scheme.
  destruct (create_merged_style st) as [r st'] eqn:E. cbn [fst snd] in *.
  destruct (create_merged_style_cases st r st' E)
    as [Hk|(fg & bg & Hfg & Hbg & Hst)]; [contradiction|].
  exists fg, bg, (negb (String.eqb scheme "default")), (String.eqb scheme "inverse").
  split; [exact Hfg|split; [exact Hbg|split; [exact Hst|]]].
  split; [|split].
  - rewrite negb_true_iff. rewrite String.eqb_neq. reflexivity.
  - apply String.eqb_eq.
  - intros ->. split; reflexivity.
Qed.

Section Frame.
Context {B : Type} (f : App -> B).

Lemma keeps_ret {A} (a : A) : keeps f (ret a).
Proof. intros st. reflexivity. Qed.

Lemma keeps_raise {A} (e : exn) : keeps f (raise (A:=A) e).
Proof. intros st. reflexivity. Qed.

Lemma keeps_gets {A} (g : App -> A) : keeps f (gets g).
Proof. intros st. reflexivity. Qed.

Lemma keeps_modify (g : App -> App) :
  (forall st, f (g st) = f st) -> keeps f (modify g).
Proof. intros H st. apply H. Qed.

Lemma keeps_bind {A C} (m : M A) (k : A -> M C) :
  keeps f m -> (forall a, keeps f (k a)) -> keeps f (bind m k).
Proof.
  intros Hm Hk st. unfold bind. specialize (Hm st).
  destruct (m st) as [[a|e] st1]; cbn [snd] in *.
  - rewrite (Hk a st1). exact Hm.
  - exact Hm.
Qed.

Lemma keeps_except_ValueError_pass (m : M unit) :
  keeps f m -> keeps f (except_ValueError_pass m).
Proof.
  intros Hm st. unfold except_ValueError_pass. specialize (Hm st).
  destruct (m st) as [[a|[]] st1]; exact Hm.
Qed.
End Frame.

Lemma quiet_ret {A} (a : A) :
  adds_no_negotiation_event (ret (Layout:=Layout) a).
Proof. intros st. exists []. rewrite app_nil_r. split; reflexivity. Qed.

Lemma quiet_raise {A} (e : exn) :
  adds_no_negotiation_event (raise (Layout:=Layout) (A:=A) e).
Proof. intros st. exists []. rewrite app_nil_r. split; reflexivity. Qed.

Lemma quiet_gets {A} (g : App -> A) :
  adds_no_negotiation_event (gets g).
Proof. intros st. exists []. rewrite app_nil_r. split; reflexivity. Qed.

Lemma quiet_modify (g : App -> App) :
  (forall st, events (g st) = events st) ->
  adds_no_negotiation_event (modify g).
Proof.
  intros H st. exists []. rewrite app_nil_r. split; [apply H|reflexivity].
Qed.

Lemma quiet_emit (e : Event) :
  negotiation_event e = false ->
  adds_no_negotiation_event (emit (Layout:=Layout) e).
Proof.
  intros H st. exists [e]. split; [reflexivity|]. cbn. rewrite H. reflexivity.
Qed.

Lemma quiet_bind {A C} (m : M A) (k : A -> M C) :
  adds_no_negotiation_event m ->
  (forall a, adds_no_negotiation_event (k a)) ->
  adds_no_negotiation_event (bind m k).
Proof.
  intros Hm Hk st. unfold bind. destruct (Hm st) as (evs1 & E1 & Q1).
  destruct (m st) as [[a|e] st1]; cbn [snd] in *.
  - destruct (Hk a st1) as (evs2 & E2 & Q2).
    exists (evs1 ++ evs2). split.
    + rewrite E2, E1, app_assoc. reflexivity.
    + rewrite existsb_app, Q1, Q2. reflexivity.
  - exists evs1. auto.
Qed.

Lemma quiet_except_ValueError_pass (m : M unit) :
  adds_no_negotiation_event m ->
  adds_no_negotiation_event (except_ValueError_pass m).
Proof.
  intros Hm st. unfold except_ValueError_pass. specialize (Hm st).
  destruct (m st) as [[a|[]] st1]; exact Hm.
Qed.

Lemma silent_keeps_term_info {A} (m : M A) : silent m -> keeps term_info m.
Proof. intros H st. apply H. Qed.

Lemma silent_keeps_input_closed {A} (m : M A) : silent m -> keeps input_closed m.
Proof. intros H st. apply H. Qed.

Lemma silent_quiet {A} (m : M A) : silent m -> adds_no_negotiation_event m.
Proof.
  intros H st. exists []. rewrite app_nil_r. split; [apply H|reflexivity].
Qed.

Ltac silent_by_cases :=
  intros st; cbv beta delta [tabs_getitem tabs_remove tabs_index tabs_append
    layout_focus layout_focus_next new_tab fresh dict_getitem add_color
    futures_append modify ret raise gets];
  repeat case_match; cbn; auto.

Lemma silent_tabs_getitem (i : Z) : silent (tabs_getitem i).
Proof. silent_by_cases. Qed.
Lemma silent_tabs_remove t : silent (tabs_remove t).
Proof. silent_by_cases. Qed.
Lemma silent_tabs_append t : silent (tabs_append t).
Proof. silent_by_cases. Qed.
Lemma silent_layout_focus (e : FocusableElement) : silent (layout_focus e).
Proof. silent_by_cases. Qed.
Lemma silent_layout_focus_next : silent layout_focus_next.
Proof. silent_by_cases. Qed.
Lemma silent_new_tab (cls : TabClass) (p : option Path) : silent (new_tab cls p).
Proof. silent_by_cases. Qed.
Lemma silent_dict_getitem {V} (k : string) (d : list (string * V)) :
  silent (dict_getitem k d).
Proof. silent_by_cases. Qed.
Lemma silent_add_color (name base o : string) : silent (add_color name base o).
Proof. silent_by_cases. Qed.
Lemma silent_futures_append : silent futures_append.
Proof. silent_by_cases. Qed.

Lemma silent_tab : silent tab.
Proof.
  intros st. unfold tab. destruct (tabs st) eqn:E; [cbn; auto|].
  unfold bind, tabs_getitem, ret.
  destruct (focused_tab_index _ _ _); cbn [_tab_idx tabs set__tab_idx];
    destruct (getitem _ _); cbn; auto.
Qed.

Lemma nf_silent {A} (m : M A) : silent m -> negotiation_free m.
Proof.
  intros H. split; [apply silent_keeps_term_info|apply silent_quiet]; exact H.
Qed.

Lemma nf_ret {A} (a : A) : negotiation_free (ret (Layout:=Layout) a).
Proof. split; [apply keeps_ret|apply quiet_ret]. Qed.

Lemma nf_raise {A} (e : exn) : negotiation_free (raise (Layout:=Layout) (A:=A) e).
Proof. split; [apply keeps_raise|apply quiet_raise]. Qed.

Lemma nf_gets {A} (g : App -> A) : negotiation_free (gets g).
Proof. split; [apply keeps_gets|apply quiet_gets]. Qed.

Lemma nf_modify (g : App -> App) :
  (forall st, term_info (g st) = term_info st /\ events (g st) = events st) ->
  negotiation_free (modify g).
Proof.
  intros H. split; [apply keeps_modify|apply quiet_modify]; intros st; apply H.
Qed.

Lemma nf_emit (e : Event) :
  negotiation_event e = false -> negotiation_free (emit (Layout:=Layout) e).
Proof.
  intros H. split; [|apply quiet_emit, H]. intros st. reflexivity.
Qed.

Lemma nf_bind {A C} (m : M A) (k : A -> M C) :
  negotiation_free m -> (forall a, negotiation_free (k a)) ->
  negotiation_free (bind m k).
Proof.
  intros [Hm1 Hm2] Hk. split.
  - apply keeps_bind; [exact Hm1|intros a; apply Hk].
  - apply quiet_bind; [exact Hm2|intros a; apply Hk].
Qed.

Lemma nf_except_ValueError_pass (m : M unit) :
  negotiation_free m -> negotiation_free (except_ValueError_pass m).
Proof.
  intros [H1 H2]. split.
  - apply keeps_except_ValueError_pass, H1.
  - apply quiet_except_ValueError_pass, H2.
Qed.

Create HintDb silent_db.
#[local] Hint Resolve silent_tabs_getitem silent_tabs_remove silent_tabs_append
  silent_layout_focus silent_layout_focus_next silent_new_tab
  silent_dict_getitem silent_add_color silent_futures_append silent_tab
  : silent_db.

Ltac nf_step :=
  first
    [ apply nf_bind; [|intros ?]
    | apply nf_ret
    | apply nf_raise
    | apply nf_gets
    | apply nf_emit; reflexivity
    | apply nf_modify; intros ?; split; reflexivity
    | apply nf_except_ValueError_pass
    | apply nf_silent; solve [auto with silent_db]
    | assumption
    | match goal with
      | |- negotiation_free (match ?x with _ => _ end) => destruct x
      | |- negotiation_free (if ?x then _ else _) => destruct x
      end ].

Ltac nf_auto := repeat nf_step.

Lemma nf_open_file (path : string) : negotiation_free (open_file path).
Proof. unfold open_file, Tab_focus. nf_auto. Qed.

Lemma nf_open_each (fs : list string) : negotiation_free (open_each fs).
Proof.
  induction fs as [|file fs IH]; cbn [open_each]; [apply nf_ret|].
  apply nf_bind; [apply nf_open_file|intros _; exact IH].
Qed.

Lemma nf_open_files : negotiation_free open_files.
Proof. unfold open_files. apply nf_bind; [apply nf_gets|intros fs; apply nf_open_each]. Qed.

Lemma nf_TuiApp_post_load : negotiation_free TuiApp_post_load.
Proof. unfold TuiApp_post_load, Tab_focus. nf_auto. Qed.

Lemma nf_futures_pop : negotiation_free futures_pop.
Proof. unfold futures_pop. nf_auto. Qed.

Lemma nf_add_colors (default items : list (string * string)) :
  negotiation_free (add_colors default items).
Proof.
  induction items as [|[name color] items IH]; cbn [add_colors]; nf_auto.
Qed.

Lemma nf_create_merged_style : negotiation_free create_merged_style.
Proof.
  unfold create_merged_style.
  repeat first [apply nf_add_colors | nf_step].
Qed.

Lemma nf_update_style (p c : option string) : negotiation_free (update_style p c).
Proof.
  unfold update_style. repeat first [apply nf_create_merged_style | nf_step].
Qed.

Lemma nf_pre_run_setup : negotiation_free pre_run_setup.
Proof.
  unfold pre_run_setup, load_key_bindings.
  repeat first [apply nf_update_style | nf_step].
Qed.

Ltac keeps_step :=
  first
    [ apply keeps_bind; [|intros ?]
    | apply keeps_ret
    | apply keeps_raise
    | apply keeps_gets
    | apply keeps_modify; intros ?; reflexivity
    | apply silent_keeps_input_closed; solve [auto with silent_db]
    | match goal with
      | |- keeps _ (match ?x with _ => _ end) => destruct x
      | |- keeps _ (if ?x then _ else _) => destruct x
      end ].

Lemma add_colors_keeps_input_closed (default items : list (string * string)) :
  keeps input_closed (add_colors (Layout:=Layout) default items).
Proof.
  induction items as [|[name color] items IH]; cbn [add_colors];
    repeat first [exact IH | keeps_step].
Qed.

Lemma pre_run_setup_keeps_input_closed :
  keeps input_closed (pre_run_setup (Layout:=Layout)).
Proof.
  unfold pre_run_setup, load_key_bindings, update_style, create_merged_style,
    emit.
  repeat first [apply add_colors_keeps_input_closed | keeps_step].
Qed.

Lemma bind_Ok_inv {A C} (m : M A) (k : A -> M C) st (c : C) st' :
  bind m k st = (Ok c, st') ->
  exists a st1, m st = (Ok a, st1) /\ k a st1 = (Ok c, st').
Proof.
  unfold bind. destruct (m st) as [[a|e] st1]; intros H.
  - exists a, st1. auto.
  - discriminate.
Qed.

Lemma terminal_ready_Ok st st' :
  terminal_ready st = (Ok tt, st') ->
  exists s2 s3,
    open_files
      (set_layout (Layout_new (focused_element st))
         (set_events (events st ++ [EvLoadContainer]) st)) = (Ok tt, s2) /\
    post_load s2 = (Ok tt, s3) /\
    _is_running st' = true /\
    S (_waiting_for_cpr_futures (renderer st')) =
      _waiting_for_cpr_futures (renderer s3) /\
    events st' = events s3 ++ [EvRequestCursorPosition; EvInvalidate] /\
    tabs st' = tabs s3 /\
    layout st' = layout s3.
Proof.
  intros H. unfold terminal_ready, load_container in H.
  apply bind_Ok_inv in H as ([] & sa & Ha & H).
  apply bind_Ok_inv in H as ([] & sb & Hb & H).
  apply bind_Ok_inv in H as ([] & s2 & H2 & H).
  apply bind_Ok_inv in H as ([] & s3 & H3 & H).
  apply bind_Ok_inv in H as ([] & s4 & H4 & H).
  apply bind_Ok_inv in H as ([] & s5 & H5 & H).
  apply bind_Ok_inv in H as ([] & s6 & H6 & H).
  unfold emit, modify in Ha, Hb, H4, H6, H.
  injection Ha as <-. injection Hb as <-. injection H4 as <-.
  injection H6 as <-. injection H as <-.
  exists s2, s3. split; [exact H2|split; [exact H3|]].
  unfold futures_pop, bind, gets, modify, raise in H5.
  cbn [renderer set__is_running] in H5.
  destruct (_waiting_for_cpr_futures (renderer s3)) as [|n] eqn:En;
    [discriminate|].
  injection H5 as <-. cbn. rewrite <- app_assoc. auto.
Qed.

Section Startup.

(** The registered callables leave the terminal queries alone. *)
Hypothesis callables_negotiation_free :
  forall cb, negotiation_free (run_callable cb).

Lemma nf_call_each (cbs : list Callable) : negotiation_free (call_each cbs).
Proof.
  induction cbs as [|cb cbs IH]; cbn [call_each]; [apply nf_ret|].
  apply nf_bind; [apply callables_negotiation_free|intros _; exact IH].
Qed.

Lemma nf_post_load : negotiation_free post_load.
Proof.
  unfold post_load, EuporieApp_post_load.
  repeat first [apply nf_TuiApp_post_load | apply nf_call_each | nf_step].
Qed.

Lemma nf_terminal_ready : negotiation_free terminal_ready.
Proof.
  unfold terminal_ready, load_container.
  repeat first [apply nf_open_files | apply nf_post_load | apply nf_futures_pop
               | nf_step].
Qed.


End Startup.

(** With an open input, [pre_run] only schedules the coroutine that
    queries the terminal; [terminal_ready] runs later, from that task. *)
Lemma pre_run_interactive st :
  input_closed st = false ->
  pre_run st =
  (pre_run_setup ;; emit (EvBackgroundTask await_terminal_feedback)) st.
Proof.
  intros Hc. unfold pre_run, bind at 1 3.
  pose proof (pre_run_setup_keeps_input_closed st) as Hk.
  destruct (pre_run_setup st) as [[[]|e] s1]; [|reflexivity].
  cbn [snd] in Hk. unfold bind, gets. rewrite Hk, Hc. reflexivity.
Qed.

(** * Further properties *)

(** ** More on the tab collection *)

Lemma list_remove_first_None t ts :
  list_remove_first t ts = None <-> t ∉ ts.
Proof.
  induction ts as [|y ts IH]; simpl.
  - split; [intros _; apply not_elem_of_nil|reflexivity].
  - destruct (decide (t = y)) as [->|Hne].
    + split; [discriminate|]. intros H. exfalso. apply H. left.
    + destruct (list_remove_first t ts) as [r|].
      * split; [discriminate|]. intros H. exfalso.
        apply not_elem_of_cons in H as [_ H]. apply IH in H. discriminate.
      * split; [|reflexivity]. intros _. apply not_elem_of_cons.
        split; [exact Hne|]. apply IH. reflexivity.
Qed.

Lemma list_remove_first_split t (l1 l2 : list Tab) :
  t ∉ l1 -> list_remove_first t (l1 ++ t :: l2) = Some (l1 ++ l2).
Proof.
  induction l1 as [|y l1 IH]; intros Hn; simpl.
  - destruct (decide (t = t)); congruence.
  - apply not_elem_of_cons in Hn as [Hne Hn].
    destruct (decide (t = y)); [congruence|]. rewrite IH by exact Hn.
    reflexivity.
Qed.

Lemma elem_of_first_split t ts :
  t ∈ ts -> exists l1 l2, ts = l1 ++ t :: l2 /\ t ∉ l1.
Proof.
  induction ts as [|y ts IH]; intros Hin.
  - apply elem_of_nil in Hin. contradiction.
  - destruct (decide (t = y)) as [->|Hne].
    + exists [], ts. split; [reflexivity|apply not_elem_of_nil].
    + apply elem_of_cons in Hin as [Heq|Hin]; [contradiction|].
      destruct (IH Hin) as (l1 & l2 & -> & Hn).
      exists (y :: l1), l2. split; [reflexivity|].
      apply not_elem_of_cons. split; [exact Hne|exact Hn].
Qed.

Lemma list_index_split t (l1 l2 : list Tab) :
  t ∉ l1 -> list_index t (l1 ++ t :: l2) = Some (Z.of_nat (length l1)).
Proof.
  induction l1 as [|y l1 IH]; intros Hn; cbn [app list_index].
  - destruct (decide (t = t)); [reflexivity|congruence].
  - apply not_elem_of_cons in Hn as [Hne Hn].
    destruct (decide (t = y)); [congruence|]. rewrite IH by exact Hn.
    f_equal. cbn [length]. lia.
Qed.

Lemma list_index_None t ts : t ∉ ts -> list_index t ts = None.
Proof.
  induction ts as [|y ts IH]; intros Hn; simpl; [reflexivity|].
  apply not_elem_of_cons in Hn as [Hne Hn].
  destruct (decide (t = y)); [congruence|]. rewrite IH by exact Hn.
  reflexivity.
Qed.

(** What [cleanup_closed_tab] does once the tab was found: the removal is
    kept whatever the layout answers. *)
Lemma cleanup_closed_tab_found t (l1 l2 : list Tab) st :
  tabs st = l1 ++ t :: l2 ->
  t ∉ l1 ->
  tabs (snd (cleanup_closed_tab t st)) = l1 ++ l2 /\
  events (snd (cleanup_closed_tab t st)) = events st /\
  dialogs (snd (cleanup_closed_tab t st)) = dialogs st /\
  (fst (cleanup_closed_tab t st) = Ok tt \/
   fst (cleanup_closed_tab t st) = Raise ValueError) /\
  (l1 ++ l2 = [] -> fst (cleanup_closed_tab t st) = Ok tt) /\
  ((forall t' l, is_Some (focus (FTab t') l)) ->
   fst (cleanup_closed_tab t st) = Ok tt).
Proof.
  intros Ht Hn. unfold cleanup_closed_tab.
  assert (Hrm : tabs_remove t st = (Ok tt, set_tabs (l1 ++ l2) st)).
  { unfold tabs_remove. rewrite Ht, list_remove_first_split by exact Hn.
    reflexivity. }
  rewrite (bind_Ok _ _ _ _ _ Hrm).
  destruct (l1 ++ l2) as [|x rest] eqn:El.
  - rewrite (bind_Ok _ _ _ _ _ (tab_empty (set_tabs [] st) eq_refl)).
    unfold except_ValueError_pass, layout_focus_next. cbn [layout set_tabs].
    destruct (focus_next (layout st)); cbn; auto 10.
  - assert (Hne : tabs (set_tabs (x :: rest) st) <> []) by discriminate.
    destruct (tab_nonempty _ Hne) as (cur & k & Htab & _ & _).
    rewrite (bind_Ok _ _ _ _ _ Htab).
    unfold layout_focus. cbn [layout set_tabs set__tab_idx].
    destruct (focus (FTab cur) (layout st)) as [l|] eqn:Ef; cbn.
    + repeat split; auto.
    + repeat split; auto; [discriminate|].
      intros Hok. destruct (Hok cur (layout st)) as [l Hl]. congruence.
Qed.

(** X1: [cleanup_closed_tab] raises [ValueError] and leaves the
    application untouched exactly when the tab is not in the collection. *)
Theorem cleanup_closed_tab_missing t st :
  t ∉ tabs st <-> cleanup_closed_tab t st = (Raise ValueError, st).
Proof.
  split.
  - intros Hn. unfold cleanup_closed_tab, bind, tabs_remove.
    rewrite (proj2 (list_remove_first_None t (tabs st)) Hn). reflexivity.
  - intros E Hin.
    destruct (elem_of_first_split t (tabs st) Hin) as (l1 & l2 & Ht & Hn).
    destruct (cleanup_closed_tab_found t l1 l2 st Ht Hn) as (Hts & _).
    rewrite E in Hts. cbn [snd] in Hts. rewrite Ht in Hts.
    apply (f_equal length) in Hts. rewrite !length_app in Hts. simpl in Hts.
    lia.
Qed.

(** X2: when the tab is in the collection, [cleanup_closed_tab] removes
    its first occurrence and keeps every other tab in order, whether or
    not the layout then accepts the focus request: the only error it can
    raise is the layout's [ValueError], and removing the last remaining
    tab never raises. *)
Theorem cleanup_closed_tab_removes t (l1 l2 : list Tab) st :
  tabs st = l1 ++ t :: l2 ->
  t ∉ l1 ->
  tabs (snd (cleanup_closed_tab t st)) = l1 ++ l2 /\
  events (snd (cleanup_closed_tab t st)) = events st /\
  (fst (cleanup_closed_tab t st) = Ok tt \/
   fst (cleanup_closed_tab t st) = Raise ValueError) /\
  (l1 ++ l2 = [] -> fst (cleanup_closed_tab t st) = Ok tt).
Proof.
  intros Ht Hn.
  destruct (cleanup_closed_tab_found t l1 l2 st Ht Hn)
    as (H1 & H2 & _ & H3 & H4 & _).
  auto.
Qed.

Lemma set_tab_idx_result (value : Z) st :
  tabs st <> [] ->
  let n := Z.of_nat (length (tabs st)) in
  exists t,
    tabs st !! Z.to_nat (value mod n) = Some t /\
    set_tab_idx value st =
    match focus (FTab t) (layout st) with
    | Some l => (Ok tt, set_layout l (set__tab_idx (value mod n)%Z st))
    | None => (Raise ValueError, set__tab_idx (value mod n)%Z st)
    end.
Proof.
  intros Hne n.
  assert (Hn : (0 < n)%Z).
  { subst n. destruct (tabs st); [congruence|simpl; lia]. }
  assert (Hm : (0 <= value mod n < n)%Z) by (apply Z.mod_pos_bound; lia).
  destruct (getitem_in_range (tabs st) (value mod n)%Z Hm) as (t & Hg & Hl).
  exists t. split; [exact Hl|].
  unfold set_tab_idx. fold n.
  destruct (n =? 0)%Z eqn:E; [apply Z.eqb_eq in E; lia|].
  unfold bind, tabs_getitem, layout_focus.
  cbn [_tab_idx tabs set__tab_idx layout].
  rewrite Hg. destruct (focus (FTab t) (layout st)); reflexivity.
Qed.

(** X3: [focus_tab] on a tab of the collection selects the index of its
    first occurrence, so that the tab at the stored index is that tab
    (also when the layout refuses the focus); on a tab that is not in the
    collection it raises [ValueError] and changes nothing. *)
Theorem focus_tab_selects t st :
  (t ∉ tabs st -> focus_tab t st = (Raise ValueError, st)) /\
  (forall l1 l2,
     tabs st = l1 ++ t :: l2 ->
     t ∉ l1 ->
     _tab_idx (snd (focus_tab t st)) = Z.of_nat (length l1) /\
     tabs (snd (focus_tab t st)) = tabs st /\
     tabs st !! Z.to_nat (_tab_idx (snd (focus_tab t st))) = Some t /\
     (fst (focus_tab t st) = Ok tt <-> is_Some (focus (FTab t) (layout st)))).
Proof.
  split.
  - intros Hn. unfold focus_tab, bind, tabs_index.
    rewrite (list_index_None t (tabs st) Hn). reflexivity.
  - intros l1 l2 Ht Hn.
    assert (Hi : tabs_index t st = (Ok (Z.of_nat (length l1)), st)).
    { unfold tabs_index. rewrite Ht, list_index_split by exact Hn.
      reflexivity. }
    unfold focus_tab. rewrite (bind_Ok _ _ _ _ _ Hi).
    assert (Hne : tabs st <> []) by (rewrite Ht; destruct l1; discriminate).
    destruct (set_tab_idx_result (Z.of_nat (length l1)) st Hne)
      as (t' & Hl & E).
    cbv zeta in *.
    assert (Hmod : (Z.of_nat (length l1) mod Z.of_nat (length (tabs st)))%Z
                   = Z.of_nat (length l1)).
    { apply Z.mod_small. rewrite Ht, length_app. simpl. lia. }
    rewrite Hmod in *. rewrite Nat2Z.id in Hl.
    assert (Ht' : t' = t).
    { rewrite Ht in Hl. rewrite lookup_app_r in Hl by lia.
      replace (length l1 - length l1)%nat with 0%nat in Hl by lia.
      simpl in Hl. congruence. }
    subst t'. rewrite E.
    destruct (focus (FTab t) (layout st)) as [l|] eqn:Ef;
      cbn [fst snd _tab_idx tabs set_layout set__tab_idx];
      rewrite Nat2Z.id; (split; [reflexivity|split; [reflexivity|split; [exact Hl|]]]).
    + split; [intros _; eexists; reflexivity|reflexivity].
    + split; [discriminate|]. intros [l Hl']. discriminate.
Qed.

(** ** More on opening files *)

Lemma already_open_omap (ppath : Path) ts :
  already_open ppath ts = true <-> ppath ∈ omap tab_path ts.
Proof.
  rewrite already_open_spec, list_elem_of_omap. reflexivity.
Qed.

(** The tab list after [open_file], whatever the outcome: unchanged, or
    extended by one new tab for the parsed path. *)
Lemma open_file_tabs (path : string) st :
  (tabs (snd (open_file path st)) = tabs st /\
   next_id (snd (open_file path st)) = next_id st) \/
  (already_open (parse_path path) (tabs st) = false /\
   exists cls,
     get_file_tab path = Some cls /\
     tabs (snd (open_file path st)) =
       tabs st ++ [mkTab (next_id st) cls (Some (parse_path path))] /\
     next_id (snd (open_file path st)) = S (next_id st)).
Proof.
  unfold open_file, bind, emit, modify, gets.
  cbn -[already_open].
  destruct (already_open (parse_path path) (tabs st)) eqn:E.
  - left. split; reflexivity.
  - destruct (get_file_tab path) as [cls|] eqn:G.
    + right. split; [reflexivity|]. exists cls. split; [reflexivity|].
      unfold new_tab, tabs_append, modify, Tab_focus, layout_focus.
      cbn -[already_open].
      destruct (focus _ (layout st)); split; reflexivity.
    + left. split; reflexivity.
Qed.

Lemma open_each_induction (P : App -> Prop) (fs : list string) :
  (forall path st, P st -> P (snd (open_file path st))) ->
  forall st, P st -> P (snd (open_each fs st)).
Proof.
  intros Hstep. induction fs as [|f fs IH]; intros st HP; [exact HP|].
  cbn [open_each]. unfold bind.
  specialize (Hstep f st HP).
  destruct (open_file f st) as [[[]|e] st1]; cbn [snd] in *.
  - apply IH, Hstep.
  - exact Hstep.
Qed.

Lemma open_files_open_each st :
  open_files st = open_each (files (config st)) st.
Proof. reflexivity. Qed.

(** X6: no file is ever open twice.  If the tabs that carry a path carry
    pairwise distinct paths, they still do after [open_file], and after
    [open_files] has gone through the configured files (also when it is
    interrupted by an error). *)
Theorem open_files_keeps_paths_distinct st :
  NoDup (omap tab_path (tabs st)) ->
  (forall path, NoDup (omap tab_path (tabs (snd (open_file path st))))) /\
  NoDup (omap tab_path (tabs (snd (open_files st)))).
Proof.
  assert (Hstep : forall path st0,
    NoDup (omap tab_path (tabs st0)) ->
    NoDup (omap tab_path (tabs (snd (open_file path st0))))).
  { intros path st0 Hnd.
    destruct (open_file_tabs path st0) as [[-> _]|(Hno & cls & _ & -> & _)];
      [exact Hnd|].
    rewrite omap_app. cbn [omap list_omap tab_path].
    apply NoDup_app. split; [exact Hnd|]. split.
    - intros p Hin Hp. apply list_elem_of_singleton in Hp as ->.
      apply already_open_omap in Hin. congruence.
    - apply NoDup_singleton. }
  intros Hnd. split.
  - intros path. apply Hstep, Hnd.
  - rewrite open_files_open_each.
    apply (open_each_induction (fun s => NoDup (omap tab_path (tabs s))));
      [exact Hstep|exact Hnd].
Qed.

(** X7: opening files never removes or reorders a tab.  After
    [open_files] the old tabs are a prefix of the collection; at most one
    tab was added per configured file, and each added tab carries the
    parsed path of one of the configured files. *)
Theorem open_files_only_appends st :
  exists new,
    tabs (snd (open_files st)) = tabs st ++ new /\
    length new <= length (files (config st)) /\
    Forall
      (fun t => exists f,
         f ∈ files (config st) /\ tab_path t = Some (parse_path f))
      new.
Proof.
  rewrite open_files_open_each.
  generalize (files (config st)) as fs. intros fs. revert st.
  induction fs as [|f fs IH]; intros st.
  - exists []. rewrite app_nil_r. split; [reflexivity|].
    split; [reflexivity|apply Forall_nil_2].
  - cbn [open_each]. unfold bind.
    assert (Hf : exists new1,
      tabs (snd (open_file f st)) = tabs st ++ new1 /\
      length new1 <= 1 /\
      Forall (fun t => tab_path t = Some (parse_path f)) new1).
    { destruct (open_file_tabs f st) as [[-> _]|(_ & cls & _ & -> & _)].
      - exists []. rewrite app_nil_r. split; [reflexivity|].
        split; [simpl; lia|apply Forall_nil_2].
      - eexists [_]. split; [reflexivity|]. split; [reflexivity|].
        apply Forall_cons. split; [reflexivity|apply Forall_nil_2]. }
    destruct Hf as (new1 & E1 & L1 & F1).
    assert (F1' : Forall (fun t => exists f0,
              f0 ∈ f :: fs /\ tab_path t = Some (parse_path f0)) new1).
    { eapply Forall_impl; [exact F1|]. intros t Ht. exists f.
      split; [left|exact Ht]. }
    destruct (open_file f st) as [[[]|e] st1]; cbn [snd] in *.
    + destruct (IH st1) as (new2 & E2 & L2 & F2).
      exists (new1 ++ new2). split; [rewrite E2, E1, app_assoc; reflexivity|].
      split; [rewrite length_app; simpl; lia|].
      apply Forall_app. split; [exact F1'|].
      eapply Forall_impl; [exact F2|]. intros t (f0 & Hin & Hp).
      exists f0. split; [right; exact Hin|exact Hp].
    + exists new1. split; [exact E1|]. split; [simpl; lia|exact F1'].
Qed.

Section TabsFocusable.

(** The layout accepts the focus request for a tab. *)
Hypothesis tabs_take_focus : forall t (l : Layout), is_Some (focus (FTab t) l).

Lemma set_tab_idx_focusable (value : Z) st :
  tabs st <> [] ->
  exists l,
    set_tab_idx value st =
    (Ok tt,
     set_layout l
       (set__tab_idx (value mod Z.of_nat (length (tabs st)))%Z st)).
Proof.
  intros Hne. destruct (set_tab_idx_result value st Hne) as (t & _ & E).
  cbv zeta in E. rewrite E.
  destruct (tabs_take_focus t (layout st)) as [l Hl]. rewrite Hl.
  exists l. reflexivity.
Qed.

(** X4: on a non-empty collection whose tabs can take the focus,
    [next-tab] moves the index one step forward modulo the number of tabs
    and [previous-tab] one step back, wrapping at both ends; one after
    the other, in either order, they return to the index they started
    from (reduced modulo the number of tabs) and leave the collection as
    it is. *)
Theorem next_previous_tab st :
  tabs st <> [] ->
  let n := Z.of_nat (length (tabs st)) in
  (fst (next_tab st) = Ok tt /\
   _tab_idx (snd (next_tab st)) = ((_tab_idx st + 1) mod n)%Z) /\
  (fst (previous_tab st) = Ok tt /\
   _tab_idx (snd (previous_tab st)) = ((_tab_idx st - 1) mod n)%Z) /\
  (fst ((next_tab ;; previous_tab) st) = Ok tt /\
   _tab_idx (snd ((next_tab ;; previous_tab) st)) = (_tab_idx st mod n)%Z /\
   tabs (snd ((next_tab ;; previous_tab) st)) = tabs st) /\
  (fst ((previous_tab ;; next_tab) st) = Ok tt /\
   _tab_idx (snd ((previous_tab ;; next_tab) st)) = (_tab_idx st mod n)%Z /\
   tabs (snd ((previous_tab ;; next_tab) st)) = tabs st).
Proof.
  intros Hne n.
  assert (Hn : (0 < n)%Z).
  { subst n. destruct (tabs st); [congruence|simpl; lia]. }
  assert (Hstep : forall d st0,
    tabs st0 = tabs st ->
    exists l,
      (i <- tab_idx ;; set_tab_idx (i + d)) st0 =
      (Ok tt, set_layout l (set__tab_idx ((_tab_idx st0 + d) mod n)%Z st0))).
  { intros d st0 Ht0.
    assert (Hne0 : tabs st0 <> []) by (rewrite Ht0; exact Hne).
    destruct (set_tab_idx_focusable (_tab_idx st0 + d) st0 Hne0) as (l & E).
    exists l. unfold bind, tab_idx, gets. rewrite E, Ht0. reflexivity. }
  assert (Hnext : forall st0, tabs st0 = tabs st ->
    exists l, next_tab st0 =
      (Ok tt, set_layout l (set__tab_idx ((_tab_idx st0 + 1) mod n)%Z st0)))
    by (intros st0 H0; exact (Hstep 1%Z st0 H0)).
  assert (Hprev : forall st0, tabs st0 = tabs st ->
    exists l, previous_tab st0 =
      (Ok tt, set_layout l (set__tab_idx ((_tab_idx st0 - 1) mod n)%Z st0))).
  { intros st0 H0. destruct (Hstep (-1)%Z st0 H0) as (l & E).
    exists l. exact E. }
  destruct (Hnext st eq_refl) as (l1 & E1).
  destruct (Hprev st eq_refl) as (l2 & E2).
  split; [rewrite E1; split; reflexivity|].
  split; [rewrite E2; split; reflexivity|].
  split.
  - rewrite (bind_Ok _ _ _ _ _ E1).
    destruct (Hprev (set_layout l1 (set__tab_idx ((_tab_idx st + 1) mod n)%Z st))
                eq_refl) as (l3 & E3).
    rewrite E3. cbn [fst snd _tab_idx tabs set_layout set__tab_idx].
    split; [reflexivity|split; [|reflexivity]].
    rewrite Zminus_mod_idemp_l. f_equal. lia.
  - rewrite (bind_Ok _ _ _ _ _ E2).
    destruct (Hnext (set_layout l2 (set__tab_idx ((_tab_idx st - 1) mod n)%Z st))
                eq_refl) as (l3 & E3).
    rewrite E3. cbn [fst snd _tab_idx tabs set_layout set__tab_idx].
    split; [reflexivity|split; [|reflexivity]].
    rewrite Zplus_mod_idemp_l. f_equal. lia.
Qed.

(** X5: closing a tab that completes its close removes it from the
    collection; asking the same tab to close a second time makes its
    callback raise [ValueError], because the tab is no longer in the
    collection, and removes nothing more. *)
Theorem close_tab_twice t (l1 l2 : list Tab) st :
  tabs st = l1 ++ t :: l2 ->
  t ∉ l1 ->
  t ∉ l2 ->
  closes t = true ->
  let st1 := snd (close_tab (Some t) st) in
  fst (close_tab (Some t) st) = Ok tt /\
  tabs st1 = l1 ++ l2 /\
  fst (close_tab (Some t) st1) = Raise ValueError /\
  tabs (snd (close_tab (Some t) st1)) = l1 ++ l2.
Proof.
  intros Ht Hn1 Hn2 Hc st1.
  assert (E : forall st0,
    close_tab (Some t) st0 =
    cleanup_closed_tab t
      (set_events (events st0 ++ [EvTabClose t (cleanup_partial t)]) st0)).
  { intros st0. unfold close_tab, bind, ret, Tab_close, emit, modify.
    rewrite Hc. reflexivity. }
  subst st1. rewrite !E.
  set (st0 := set_events _ st).
  destruct (cleanup_closed_tab_found t l1 l2 st0 Ht Hn1)
    as (Hts & _ & _ & _ & _ & Hok).
  split; [exact (Hok tabs_take_focus)|]. split; [exact Hts|].
  set (st2 := set_events _ (snd (cleanup_closed_tab t st0))).
  assert (Hmiss : t ∉ tabs st2).
  { subst st2. cbn [tabs set_events]. rewrite Hts.
    intros Hin. apply elem_of_app in Hin as [Hin|Hin]; contradiction. }
  assert (E2 : cleanup_closed_tab t st2 = (Raise ValueError, st2)).
  { unfold cleanup_closed_tab, bind, tabs_remove.
    rewrite (proj2 (list_remove_first_None t (tabs st2)) Hmiss). reflexivity. }
  rewrite E2. split; [reflexivity|]. exact Hts.
Qed.


Lemma already_open_snoc (p : Path) ts t :
  already_open p (ts ++ [t]) =
  already_open p ts || bool_decide (tab_path t = Some p).
Proof.
  unfold already_open. rewrite existsb_app. simpl. rewrite orb_false_r.
  reflexivity.
Qed.


End TabsFocusable.

(** ** The log view *)

(** X9: [help_logs] keeps a single log view.  After it ran, the
    collection holds a [LogView] tab; when it already held one, the
    collection is unchanged, otherwise one tab was appended; running it
    again never adds a second one (whether or not the layout accepts the
    focus request). *)
Theorem help_logs_single_view st :
  let st1 := snd (help_logs st) in
  (exists t, t ∈ tabs st1 /\ tab_class t = LogView) /\
  ((exists t, t ∈ tabs st /\ tab_class t = LogView) -> tabs st1 = tabs st) /\
  (exists new, tabs st1 = tabs st ++ new /\ length new <= 1) /\
  tabs (snd (help_logs st1)) = tabs st1.
Proof.
  assert (Hfound : forall st0 i t,
    list_find (fun t => tab_class t = LogView) (tabs st0) = Some (i, t) ->
    tabs (snd (help_logs st0)) = tabs st0).
  { intros st0 i t E. unfold help_logs, bind, gets. rewrite E.
    unfold ret, layout_focus. destruct (focus _ _); reflexivity. }
  assert (Hnew : forall st0,
    list_find (fun t => tab_class t = LogView) (tabs st0) = None ->
    tabs (snd (help_logs st0)) =
      tabs st0 ++ [mkTab (next_id st0) LogView None]).
  { intros st0 E. unfold help_logs, bind, gets. rewrite E.
    unfold new_tab, tabs_append, modify, ret, layout_focus.
    cbn [layout set_tabs set_next_id]. destruct (focus _ _); reflexivity. }
  intros st1.
  assert (Hhas : exists i t,
    list_find (fun t => tab_class t = LogView) (tabs st1) = Some (i, t)).
  { destruct (list_find (fun t => tab_class t = LogView) (tabs st)) as [[i t]|]
      eqn:E.
    - exists i, t. subst st1. rewrite (Hfound st i t E). exact E.
    - subst st1. rewrite (Hnew st E).
      destruct (list_find (fun t => tab_class t = LogView)
                  (tabs st ++ [mkTab (next_id st) LogView None]))
        as [[i t]|] eqn:E2; [eauto|].
      exfalso. rewrite list_find_None in E2.
      apply Forall_app in E2 as [_ E2]. apply Forall_cons in E2 as [E2 _].
      apply E2. reflexivity. }
  destruct Hhas as (i & t & Hi).
  split; [|split; [|split]].
  - exists t. apply list_find_Some in Hi as (Hl & Hc & _).
    split; [|exact Hc]. apply list_elem_of_lookup. exists i. exact Hl.
  - intros (t0 & Hin & Hc).
    destruct (list_find (fun t => tab_class t = LogView) (tabs st)) as [[j u]|]
      eqn:E.
    + exact (Hfound st j u E).
    + exfalso. rewrite list_find_None in E.
      rewrite Forall_forall in E. exact (E t0 Hin Hc).
  - destruct (list_find (fun t => tab_class t = LogView) (tabs st)) as [[j u]|]
      eqn:E.
    + exists []. rewrite app_nil_r. split; [exact (Hfound st j u E)|simpl; lia].
    + eexists [_]. split; [exact (Hnew st E)|reflexivity].
  - exact (Hfound st1 i t Hi).
Qed.

(** ** More on dialogs *)

(** The float [TuiApp.dialog] builds from the buttons [bs]. *)
Lemma dialog_run (title : string) (body : Container)
    (buttons : list (string * option Callable))
    (to_focus : option FocusableElement) st :
  has_dialog st = false ->
  let focused := current_control (layout st) in
  let fid := next_id st in
  exists bs,
    map button_text bs = map fst buttons /\
    map button_handler bs = map (fun p => mkHandler focused fid (snd p)) buttons /\
    let kb :=
      mkKeyBinding "escape" (mkHandler focused fid None) false ::
      map (fun b =>
             mkKeyBinding (first_char_lower (button_text b))
               (button_handler b) true) bs in
    let f := mkFloat fid title body bs kb in
    let shown :=
      set_has_dialog true
        (set_dialogs (dialogs st ++ [f])
           (set_next_id (length buttons + S (next_id st)) st)) in
    dialog title body buttons to_focus st =
    match
      match to_focus with
      | Some e => Some e
      | None => match bs with
                | b :: _ => Some (FContainer (button_widget b))
                | [] => None
                end
      end
    with
    | None => (Raise IndexError, shown)
    | Some e =>
        match focus e (layout st) with
        | Some l =>
            (Ok tt,
             set_events (events st ++ [EvInvalidate]) (set_layout l shown))
        | None => (Raise ValueError, shown)
        end
    end.
Proof.
  intros Hd focused fid. subst focused fid.
  destruct (make_buttons_spec
              (mkHandler (current_control (layout st)) (next_id st)) buttons
              (set_next_id (S (next_id st)) st)) as (bs & Eb & Ht & Hh).
  exists bs. split; [exact Ht|]. split; [exact Hh|]. cbv zeta.
  unfold dialog.
  unfold bind at 1, gets at 1. cbn beta iota. rewrite Hd.
  unfold bind at 1, gets at 1. cbn beta iota.
  unfold bind at 1, fresh at 1. cbn beta iota.
  unfold bind at 1. rewrite Eb.
  unfold bind, add_float, modify, layout_focus, emit, ret, raise.
  cbn [dialogs set_dialogs set_has_dialog layout set_next_id has_dialog
       next_id events set_layout set_events].
  destruct to_focus as [e|]; [|destruct bs as [|b bs']];
    cbn [dialogs set_dialogs set_has_dialog layout set_next_id has_dialog
         next_id events set_layout set_events];
    try reflexivity;
    match goal with
    | |- context [focus ?x (layout st)] => destruct (focus x (layout st))
    end; reflexivity.
Qed.



(** The state [handler_inner] hands to the callback. *)
Lemma handler_inner_run (h : Handler) st :
  let st1 :=
    set_has_dialog false
      (set_dialogs (remove_float_from (h_dialog_float h) (dialogs st)) st) in
  let st2 :=
    if bool_decide (h_focused h ∈ find_all_controls (layout st))
    then match focus (FControl (h_focused h)) (layout st) with
         | Some l => set_layout l st1
         | None => st1
         end
    else st1 in
  handler_inner h st =
  match h_cb h with
  | Some cb => run_callable cb st2
  | None => (Ok tt, st2)
  end.
Proof.
  intros st1 st2.
  unfold handler_inner, bind, remove_float, modify, gets.
  cbn [layout set_has_dialog set_dialogs]. fold st1. subst st2.
  destruct (bool_decide (h_focused h ∈ find_all_controls (layout st))).
  - unfold except_ValueError_pass, layout_focus.
    cbn [layout st1 set_has_dialog set_dialogs].
    destruct (focus (FControl (h_focused h)) (layout st));
      destruct (h_cb h); reflexivity.
  - destruct (h_cb h); reflexivity.
Qed.

Lemma dialog_shown (title : string) (body : Container)
    (buttons : list (string * option Callable))
    (to_focus : option FocusableElement) st :
  has_dialog st = false ->
  exists f,
    dialogs (snd (dialog title body buttons to_focus st)) = dialogs st ++ [f] /\
    float_id f = next_id st /\
    tabs (snd (dialog title body buttons to_focus st)) = tabs st /\
    Forall (fun h => h_dialog_float h = float_id f)
      (map button_handler (float_buttons f) ++
       map kb_handler (float_key_bindings f)).
Proof.
  intros Hd.
  destruct (dialog_run title body buttons to_focus st Hd)
    as (bs & Ht & Hh & E).
  cbv zeta in E.
  set (focused := current_control (layout st)) in *.
  set (fid := next_id st) in *.
  set (f := mkFloat fid title body bs _) in *.
  exists f. rewrite E.
  assert (Hhandlers :
    Forall (fun h => h_dialog_float h = fid) (map button_handler bs)).
  { rewrite Hh. apply Forall_forall. intros h Hin.
    apply list_elem_of_fmap in Hin as (p & -> & _). reflexivity. }
  assert (Hall : Forall (fun h => h_dialog_float h = float_id f)
      (map button_handler (float_buttons f) ++
       map kb_handler (float_key_bindings f))).
  { apply Forall_app. split; [exact Hhandlers|].
    cbn [float_key_bindings f map kb_handler].
    apply Forall_cons. split; [reflexivity|].
    rewrite map_map. exact Hhandlers. }
  destruct (match to_focus with Some e => Some e | None => _ end) as [e|];
    [destruct (focus e (layout st))|]; cbn [snd]; auto.
Qed.

(** X12: showing a dialog and dismissing it through any of its handlers
    (a button, Escape or a character shortcut) restores the overlay list
    and the flag to what they were before the dialog was shown, provided
    the floats on the list were created before (their identities are
    below the allocation counter); the callback, if any, starts from that
    state. *)
Theorem dialog_show_then_dismiss (title : string) (body : Container)
    (buttons : list (string * option Callable))
    (to_focus : option FocusableElement) (h : Handler) st :
  has_dialog st = false ->
  Forall (fun g => float_id g < next_id st) (dialogs st) ->
  let st1 := snd (dialog title body buttons to_focus st) in
  (exists f, last (dialogs st1) = Some f /\
     h ∈ map button_handler (float_buttons f) ++
         map kb_handler (float_key_bindings f)) ->
  exists st2,
    handler_inner h st1 =
      match h_cb h with
      | Some cb => run_callable cb st2
      | None => (Ok tt, st2)
      end /\
    dialogs st2 = dialogs st /\
    has_dialog st2 = false /\
    tabs st2 = tabs st.
Proof.
  intros Hd Hfresh st1 (f0 & Hlast & Hh).
  destruct (dialog_shown title body buttons to_focus st Hd)
    as (f & Hds & Hid & Htabs & Hcap).
  fold st1 in Hds, Htabs.
  assert (f0 = f) by (rewrite Hds, last_snoc in Hlast; congruence).
  subst f0.
  rewrite Forall_forall in Hcap. pose proof (Hcap h Hh) as Hfid.
  pose proof (handler_inner_run h st1) as E. cbv zeta in E.
  eexists. split; [exact E|].
  assert (Hrem :
    remove_float_from (h_dialog_float h) (dialogs st1) = dialogs st).
  { rewrite Hfid, Hds. apply remove_float_from_fresh. rewrite Hid.
    intros Hin. apply list_elem_of_fmap in Hin as (g & Hg & Hin).
    rewrite Forall_forall in Hfresh. specialize (Hfresh g Hin). lia. }
  destruct (bool_decide _);
    [destruct (focus _ _)|]; cbn; rewrite Hrem; auto.
Qed.

(** ** More on the style *)

Lemma dict_get_set_eq {V} (k : string) (v : V) (d : list (string * V)) :
  dict_get k (dict_set k v d) = Some v.
Proof.
  induction d as [|[k' v'] d IH]; simpl.
  - rewrite String.eqb_refl. reflexivity.
  - destruct (String.eqb k k') eqn:E; simpl; rewrite ?String.eqb_refl, ?E;
      [reflexivity|exact IH].
Qed.

Lemma dict_get_set_ne {V} (k k0 : string) (v : V) (d : list (string * V)) :
  k <> k0 -> dict_get k (dict_set k0 v d) = dict_get k d.
Proof.
  intros Hne. induction d as [|[k' v'] d IH]; simpl.
  - apply String.eqb_neq in Hne. rewrite Hne. reflexivity.
  - destruct (String.eqb k0 k') eqn:E; simpl.
    + apply String.eqb_eq in E. subst k'.
      apply String.eqb_neq in Hne. rewrite Hne. reflexivity.
    + destruct (String.eqb k k'); [reflexivity|exact IH].
Qed.

(** [add_colors] writes the palette only, and what it writes depends on
    the palette it starts from and on its arguments. *)
Lemma add_colors_run (default items : list (string * string))
    (p0 : list (string * PaletteColor)) :
  exists r p,
    forall st, color_palette st = p0 ->
      add_colors default items st = (r, set_color_palette p st).
Proof.
  revert p0. induction items as [|[name color] items IH]; intros p0.
  - exists (Ok tt), p0. intros st <-. destruct st. reflexivity.
  - cbn [add_colors].
    destruct (String.eqb color EmptyString) eqn:Ec.
    + destruct (dict_get name default) as [base|] eqn:Ed.
      * destruct (IH (dict_set name
            (mkPaletteColor base
               (if String.eqb name "fg" || String.eqb name "bg"
                then "default"%string else name)) p0)) as (r & p & H).
        exists r, p. intros st Hp.
        unfold bind, dict_getitem, add_color, modify, ret. rewrite Ed.
        rewrite H by (cbn; rewrite Hp; reflexivity). reflexivity.
      * exists (Raise KeyError), p0. intros st <-.
        unfold bind, dict_getitem, raise. rewrite Ed. destruct st. reflexivity.
    + destruct (IH (dict_set name
          (mkPaletteColor color
             (if String.eqb name "fg" || String.eqb name "bg"
              then "default"%string else name)) p0)) as (r & p & H).
      exists r, p. intros st Hp.
      unfold bind, add_color, modify, ret.
      rewrite H by (cbn; rewrite Hp; reflexivity). reflexivity.
Qed.

(** [create_merged_style] reads the configuration and the terminal
    colours and writes the palette and, once the palette is complete, the
    style transformation; nothing else. *)
Lemma create_merged_style_run (cfg : Config) (ti : TerminalInfo) :
  exists r p x,
    (x = None -> r = Raise KeyError) /\
    forall st, config st = cfg -> term_info st = ti ->
      create_merged_style st =
      (r,
       match x with
       | Some tr => set_style_transformation tr (set_color_palette p st)
       | None => set_color_palette p st
       end).
Proof.
  set (base :=
    dict_merge DEFAULT_COLORS
      (from_option id (colors_value ti)
         (dict_get (color_scheme cfg)
            [ ("light", [("fg", "#202020"); ("bg", "#F0F0F0")]);
              ("dark", [("fg", "#F0F0F0"); ("bg", "#202020")]);
              ("white", [("fg", "#000000"); ("bg", "#FFFFFF")]);
              ("black", [("fg", "#FFFFFF"); ("bg", "#000000")]);
              ("default", colors_value ti);
              ("custom", [("fg", custom_foreground_color cfg);
                          ("bg", custom_background_color cfg)]) ]%string))).
  destruct (add_colors_run (colors_value ti) base []) as (r1 & p1 & H1).
  assert (Hstart : forall st, config st = cfg -> term_info st = ti ->
    create_merged_style st =
    (match r1 with
     | Ok _ =>
         hl <- dict_getitem "ansiblue" p1 ;;
         modify (fun st => set_color_palette (dict_set "hl" hl (color_palette st)) st) ;;
         palette <- gets color_palette ;;
         fg <- dict_getitem "fg" base ;;
         bg <- dict_getitem "bg" base ;;
         modify (set_style_transformation
           [ mkConditional (SetDefaultColorStyleTransformation fg bg)
               (negb (String.eqb (color_scheme cfg) "default"));
             mkConditional SwapLightAndDarkStyleTransformation
               (String.eqb (color_scheme cfg) "inverse") ]) ;;
         theme <- gets (fun st => syntax_theme (config st)) ;;
         (if pygments_style_exists theme then ret tt
          else raise (ClassNotFound theme)) ;;
         ret [ style_from_pygments_cls theme; MIME_STYLE; MARKDOWN_STYLE;
               LOG_STYLE; IPYWIDGET_STYLE; build_style palette ]
     | Raise e => raise e
     end) (set_color_palette p1 st)).
  { intros st Hc Ht. unfold create_merged_style.
    unfold bind at 1 2 3 4. unfold gets at 1 2 3. unfold modify at 1.
    cbn beta iota. unfold base_colors_of, theme_colors. rewrite Hc, Ht.
    fold base. unfold bind at 1.
    rewrite (H1 (set_color_palette [] st) eq_refl).
    cbn [set_color_palette tabs _tab_idx render_counter layout focused_element
         dialogs has_dialog config term_info renderer color_palette
         style_transformation _color_depth _is_running input_closed
         using_vt100 post_load_callables app_class next_id events].
    destruct r1 as [[]|e]; [|reflexivity].
    unfold bind at 1. unfold gets at 1. cbn [color_palette]. reflexivity. }
  destruct r1 as [[]|e].
  - destruct (dict_get "ansiblue" p1) as [hl|] eqn:Ehl.
    + destruct (dict_get "fg" base) as [fg|] eqn:Efg.
      * destruct (dict_get "bg" base) as [bg|] eqn:Ebg.
        -- destruct (pygments_style_exists (syntax_theme cfg)) eqn:Ep;
             eexists _, (dict_set "hl" hl p1), (Some _);
             (split; [discriminate|]); intros st Hc Ht;
             rewrite (Hstart st Hc Ht);
             unfold bind, dict_getitem, modify, gets, ret, raise;
             rewrite Ehl, Efg, Ebg;
             cbn [config set_style_transformation set_color_palette
                  color_palette]; rewrite Hc, Ep; reflexivity.
        -- exists (Raise KeyError), (dict_set "hl" hl p1), None.
           split; [reflexivity|]. intros st Hc Ht. rewrite (Hstart st Hc Ht).
           unfold bind, dict_getitem, modify, gets, ret, raise.
           rewrite Ehl, Efg, Ebg. reflexivity.
      * exists (Raise KeyError), (dict_set "hl" hl p1), None.
        split; [reflexivity|]. intros st Hc Ht. rewrite (Hstart st Hc Ht).
        unfold bind, dict_getitem, modify, gets, ret, raise.
        rewrite Ehl, Efg. reflexivity.
    + exists (Raise KeyError), p1, None.
      split; [reflexivity|]. intros st Hc Ht. rewrite (Hstart st Hc Ht).
      unfold bind, dict_getitem, raise. rewrite Ehl. reflexivity.
  - set (s0 := mkApp [] 0 0 (Layout_new None) None [] false cfg ti
                 (mkRenderer None 0) [] [] DEPTH_1_BIT false false false []
                 EuporieApp 0 []).
    pose proof (add_colors_outcome (colors_value ti) base s0) as Ho.
    rewrite (H1 s0 (eq_refl : color_palette s0 = [])) in Ho. cbn [fst] in Ho.
    destruct Ho as [Ho|Ho]; [discriminate|]. injection Ho as ->.
    exists (Raise KeyError), p1, None.
    split; [reflexivity|]. intros st Hc Ht. rewrite (Hstart st Hc Ht).
    reflexivity.
Qed.

(** X13: the style is a function of the configuration and of the
    terminal colours.  Two applications with the same configuration and
    the same terminal colours get the same outcome and the same palette
    from [create_merged_style], and, unless a palette lookup fails, the
    same style transformation, whatever palette, transformation or other
    state they started from. *)
Theorem create_merged_style_reads_config_and_terminal (st1 st2 : App) :
  config st1 = config st2 ->
  term_info st1 = term_info st2 ->
  fst (create_merged_style st1) = fst (create_merged_style st2) /\
  color_palette (snd (create_merged_style st1)) =
    color_palette (snd (create_merged_style st2)) /\
  (fst (create_merged_style st1) <> Raise KeyError ->
   style_transformation (snd (create_merged_style st1)) =
     style_transformation (snd (create_merged_style st2))).
Proof.
  intros Hc Ht.
  destruct (create_merged_style_run (config st2) (term_info st2))
    as (r & p & x & Hx & H).
  rewrite (H st1 Hc Ht), (H st2 eq_refl eq_refl). cbn [fst snd].
  split; [reflexivity|].
  destruct x as [tr|]; cbn; [auto|].
  split; [reflexivity|]. intros Hr. exfalso. apply Hr, Hx. reflexivity.
Qed.

Lemma update_style_run (p c : option string) st :
  let cfg :=
    from_option set_color_scheme id c
      (from_option set_syntax_theme id p (config st)) in
  let st0 := set_config cfg st in
  update_style p c st =
  match create_merged_style st0 with
  | (Ok s, st1) =>
      (Ok tt,
       set_renderer
         (mkRenderer (Some s) (_waiting_for_cpr_futures (renderer st1))) st1)
  | (Raise e, st1) => (Raise e, st1)
  end.
Proof.
  intros cfg st0. subst st0 cfg.
  assert (E : forall s : App, set_config (config s) s = s)
    by (intros []; reflexivity).
  unfold update_style.
  destruct p as [ps|], c as [cs|]; cbn [from_option id];
    unfold bind, modify, ret; rewrite ?E; unfold set_config;
    cbn [tabs _tab_idx render_counter layout focused_element
         dialogs has_dialog config term_info renderer color_palette
         style_transformation _color_depth _is_running input_closed
         using_vt100 post_load_callables app_class next_id events];
    match goal with
    | |- context [create_merged_style ?s] =>
        destruct (create_merged_style s) as [[s1|e] st1]
    end; reflexivity.
Qed.

(** X14: [update_style] stores the new syntax theme and colour scheme in
    the configuration before it rebuilds the style, so they are kept even
    when the rebuild fails; the renderer's style is replaced only when
    the rebuild succeeds, and the rebuild touches neither the tabs, the
    layout nor the events. *)
Theorem update_style_persists (p c : option string) st :
  let r := update_style p c st in
  config (snd r) =
    from_option set_color_scheme id c
      (from_option set_syntax_theme id p (config st)) /\
  (fst r <> Ok tt -> renderer (snd r) = renderer st) /\
  (fst r = Ok tt -> is_Some (style (renderer (snd r)))) /\
  _waiting_for_cpr_futures (renderer (snd r)) =
    _waiting_for_cpr_futures (renderer st) /\
  tabs (snd r) = tabs st /\
  layout (snd r) = layout st /\
  events (snd r) = events st.
Proof.
  intros r. subst r. rewrite update_style_run. cbv zeta.
  set (cfg := from_option set_color_scheme id c _).
  destruct (create_merged_style_run cfg (term_info st))
    as (r & q & x & _ & H).
  rewrite (H (set_config cfg st) eq_refl eq_refl).
  destruct r as [s|e]; destruct x as [tr|]; cbn;
    repeat split; try congruence; try (eexists; reflexivity).
Qed.

(** X15: recomputing the style is idempotent.  After any [update_style],
    a further [update_style] without arguments has the same outcome and
    leaves the application exactly as it is. *)
Theorem update_style_idempotent (p c : option string) st :
  update_style None None (snd (update_style p c st)) = update_style p c st.
Proof.
  rewrite (update_style_run p c st). cbv zeta.
  set (cfg := from_option set_color_scheme id c _).
  destruct (create_merged_style_run cfg (term_info st))
    as (r & q & x & _ & H).
  rewrite (H (set_config cfg st) eq_refl eq_refl).
  rewrite update_style_run. cbv zeta. cbn [from_option id].
  destruct r as [s|e]; destruct x as [tr|]; cbn [snd];
    rewrite H by reflexivity; reflexivity.
Qed.

(** X16: a colour scheme without an entry of its own ("inverse", or any
    name other than "light", "dark", "white", "black" and "custom") is
    built from the terminal's colours laid over the default colours,
    exactly like "default": an unknown name is not an error. *)
Theorem unknown_scheme_uses_terminal_colors st :
  color_scheme (config st) ∉
    ["light"; "dark"; "white"; "black"; "custom"]%string ->
  base_colors_of st =
    dict_merge DEFAULT_COLORS (colors_value (term_info st)).
Proof.
  intros Hn. unfold base_colors_of, theme_colors. f_equal.
  cbn [dict_get].
  repeat match goal with
  | |- context [String.eqb ?a ?b] =>
      destruct (String.eqb a b) eqn:?E
  end; try reflexivity;
  match goal with
  | H : String.eqb _ _ = true |- _ =>
      apply String.eqb_eq in H; exfalso; apply Hn; rewrite H;
      repeat first [left|right]
  end.
Qed.

Lemma dict_get_None {V} (k : string) (d : list (string * V)) :
  k ∉ (d.*1) -> dict_get k d = None.
Proof.
  induction d as [|[k' v] d IH]; intros Hn; simpl; [reflexivity|].
  cbn [fmap list_fmap fst] in Hn. apply not_elem_of_cons in Hn as [Hne Hn].
  apply String.eqb_neq in Hne. rewrite Hne. apply IH, Hn.
Qed.

Lemma dict_set_keys {V} (k : string) (v : V) (d : list (string * V)) :
  ((dict_set k v d).*1 = (d.*1)) \/
  ((k ∉ (d.*1)) /\ ((dict_set k v d).*1 = (d.*1) ++ [k])).
Proof.
  induction d as [|[k' v'] d IH]; simpl.
  - right. split; [apply not_elem_of_nil|reflexivity].
  - destruct (String.eqb k k') eqn:E.
    + apply String.eqb_eq in E. subst k'. left. reflexivity.
    + apply String.eqb_neq in E.
      destruct IH as [IH|[Hn IH]]; cbn [fmap list_fmap fst] in *.
      * left. rewrite IH. reflexivity.
      * right. split; [|rewrite IH; reflexivity].
        apply not_elem_of_cons. split; [exact E|exact Hn].
Qed.

Lemma dict_set_keys_NoDup {V} (k : string) (v : V) (d : list (string * V)) :
  NoDup (d.*1) -> NoDup ((dict_set k v d).*1).
Proof.
  intros Hnd. destruct (dict_set_keys k v d) as [->|[Hn ->]]; [exact Hnd|].
  apply NoDup_app. split; [exact Hnd|]. split; [|apply NoDup_singleton].
  intros x Hx Hk. apply list_elem_of_singleton in Hk as ->. contradiction.
Qed.

Lemma dict_merge_keys_NoDup {V} (a b : list (string * V)) :
  NoDup (a.*1) -> NoDup ((dict_merge a b).*1).
Proof.
  unfold dict_merge. revert a. induction b as [|[k v] b IH]; intros a Hnd.
  - exact Hnd.
  - cbn [fold_left fst snd]. apply IH, dict_set_keys_NoDup, Hnd.
Qed.

(** What [add_colors] leaves in the palette for each name. *)
Lemma add_colors_lookup (default items : list (string * string)) :
  NoDup (items.*1) ->
  forall st st',
    add_colors default items st = (Ok tt, st') ->
    forall name,
      match dict_get name items with
      | Some color =>
          exists base,
            (if String.eqb color EmptyString then dict_get name default
             else Some color) = Some base /\
            dict_get name (color_palette st') =
              Some (mkPaletteColor base
                      (if String.eqb name "fg" || String.eqb name "bg"
                       then "default"%string else name))
      | None => dict_get name (color_palette st') = dict_get name (color_palette st)
      end.
Proof.
  induction items as [|[n c] items IH]; intros Hnd st st' E name.
  - injection E as <-. reflexivity.
  - cbn [fmap list_fmap fst] in Hnd. apply NoDup_cons in Hnd as [Hn Hnd].
    cbn [add_colors] in E.
    apply bind_Ok_inv in E as (base & sa & Ea & E).
    apply bind_Ok_inv in E as ([] & sb & Eb & E).
    assert (Hsa : sa = st /\
      (if String.eqb c EmptyString then dict_get n default else Some c)
      = Some base).
    { destruct (String.eqb c EmptyString).
      - unfold dict_getitem in Ea. destruct (dict_get n default);
          [|discriminate]. injection Ea as -> ->. auto.
      - injection Ea as -> ->. auto. }
    destruct Hsa as [-> Hbase].
    unfold add_color, modify in Eb. injection Eb as <-.
    pose proof (IH Hnd _ _ E name) as Hrest.
    cbn [dict_get color_palette set_color_palette] in *.
    destruct (String.eqb name n) eqn:En.
    + apply String.eqb_eq in En. subst name.
      rewrite (dict_get_None n items Hn) in Hrest.
      exists base. split; [exact Hbase|].
      rewrite Hrest. apply dict_get_set_eq.
    + apply String.eqb_neq in En.
      destruct (dict_get name items); [exact Hrest|].
      rewrite Hrest. apply dict_get_set_ne, En.
Qed.

(** The steps of a [create_merged_style] that raised no [KeyError]. *)
Lemma create_merged_style_steps st :
  fst (create_merged_style st) <> Raise KeyError ->
  exists st1 hl,
    add_colors (colors_value (term_info st)) (base_colors_of st)
      (set_color_palette [] st) = (Ok tt, st1) /\
    dict_get "ansiblue" (color_palette st1) = Some hl /\
    color_palette (snd (create_merged_style st)) =
      dict_set "hl" hl (color_palette st1).
Proof.
  intros Hok.
  destruct (create_merged_style st) as [r st'] eqn:E. cbn [fst snd] in *.
  unfold create_merged_style, bind, gets, modify, dict_getitem, ret, raise in E.
  cbn beta iota in E.
  set (base := base_colors_of st) in *.
  set (st0 := set_color_palette [] st) in *.
  pose proof (add_colors_outcome (colors_value (term_info st)) base st0) as Hac.
  destruct (add_colors (colors_value (term_info st)) base st0) as [[[]|e] st1];
    cbn [fst] in Hac.
  2:{ destruct Hac as [Hac|Hac]; [discriminate|].
      injection Hac as ->. injection E as <- <-. congruence. }
  clear Hac. exists st1.
  destruct (dict_get "ansiblue" (color_palette st1)) as [hl|].
  2:{ injection E as <- <-. congruence. }
  exists hl. split; [reflexivity|]. split; [reflexivity|].
  destruct (dict_get "fg" base) as [fg|].
  2:{ injection E as <- <-. congruence. }
  destruct (dict_get "bg" base) as [bg|].
  2:{ injection E as <- <-. congruence. }
  match type of E with
  | context [pygments_style_exists ?x] => destruct (pygments_style_exists x)
  end; injection E as <- <-; reflexivity.
Qed.

(** X17: the palette a successful recomputation leaves.  The highlight
    colour "hl" is the entry of "ansiblue"; every other base colour has
    an entry whose colour is the base colour itself or, when that is
    empty, the terminal's colour of the same name, and which is
    registered as "default" for "fg" and "bg" and under its own name
    otherwise. *)
Theorem create_merged_style_palette st :
  NoDup (DEFAULT_COLORS.*1) ->
  fst (create_merged_style st) <> Raise KeyError ->
  let palette := color_palette (snd (create_merged_style st)) in
  is_Some (dict_get "hl" palette) /\
  dict_get "hl" palette = dict_get "ansiblue" palette /\
  forall name color,
    name <> "hl"%string ->
    dict_get name (base_colors_of st) = Some color ->
    exists base,
      (if String.eqb color EmptyString
       then dict_get name (colors_value (term_info st))
       else Some color) = Some base /\
      dict_get name palette =
        Some (mkPaletteColor base
                (if String.eqb name "fg" || String.eqb name "bg"
                 then "default"%string else name)).
Proof.
  intros Hnd Hok palette.
  destruct (create_merged_style_steps st Hok) as (st1 & hl & Ea & Ehl & Ep).
  subst palette. rewrite Ep.
  assert (Hkeys : NoDup ((base_colors_of st).*1)).
  { unfold base_colors_of. apply dict_merge_keys_NoDup, Hnd. }
  pose proof (add_colors_lookup _ _ Hkeys _ _ Ea) as Hl.
  split; [rewrite dict_get_set_eq; eexists; reflexivity|]. split.
  - rewrite dict_get_set_eq, dict_get_set_ne by discriminate.
    symmetry. exact Ehl.
  - intros name color Hne Hc.
    rewrite dict_get_set_ne by exact Hne.
    specialize (Hl name). rewrite Hc in Hl. exact Hl.
Qed.

(** ** More on start-up *)

Lemma nf_cleanup_closed_tab t : negotiation_free (cleanup_closed_tab t).
Proof. unfold cleanup_closed_tab. nf_auto. Qed.

Lemma nf_call (cb : Callback) : negotiation_free (call cb).
Proof.
  induction cb as [|close_tab cleanup_tab cb IH|t]; cbn [call];
    unfold really_close;
    repeat first [exact IH | apply nf_cleanup_closed_tab | nf_step].
Qed.

Lemma nf_TuiApp_exit : negotiation_free TuiApp_exit.
Proof.
  unfold TuiApp_exit, Tab_close, really_close.
  repeat first [apply nf_call | nf_step].
Qed.

Lemma nf_exit_exception (e : exn) : negotiation_free (exit_exception e).
Proof.
  unfold exit_exception. repeat first [apply nf_TuiApp_exit | nf_step].
Qed.

(** The state in which [pre_run] leaves its set-up part. *)
Lemma pre_run_setup_run st :
  let depth :=
    from_option id (depth_of_color_value (term_info st))
      (color_depth (config st) ≫= _COLOR_DEPTHS) in
  exists r p x,
    pre_run_setup st =
    let st1 :=
      set__color_depth depth
        (set_events (events st ++ [EvLoadKeyBindings]) st) in
    let st2 :=
      match x with
      | Some tr => set_style_transformation tr (set_color_palette p st1)
      | None => set_color_palette p st1
      end in
    match r with
    | Ok s =>
        (Ok tt,
         set_renderer
           (mkRenderer (Some s) (S (_waiting_for_cpr_futures (renderer st))))
           (set__is_running false
              (set_events
                 (events st ++ [EvLoadKeyBindings; EvSubscribe colors]) st2)))
    | Raise e => (Raise e, st2)
    end.
Proof.
  intros depth.
  destruct (create_merged_style_run (config st) (term_info st))
    as (r & p & x & _ & H).
  exists r, p, x. cbv zeta.
  unfold pre_run_setup, load_key_bindings.
  unfold bind at 1, emit at 1, modify at 1.
  unfold bind at 1, modify at 1. cbn [term_info config set_events]. fold depth.
  unfold bind at 1. rewrite update_style_run. cbv zeta.
  cbn [from_option id config set__color_depth set_events].
  set (st1 := set__color_depth depth _).
  assert (E : set_config (config st) st1 = st1) by reflexivity.
  rewrite E. rewrite (H st1 eq_refl eq_refl).
  destruct r as [s|e]; [|destruct x; reflexivity].
  unfold bind, emit, modify, futures_append.
  destruct x; cbn; rewrite <- app_assoc; reflexivity.
Qed.

(** X18: with an open input, [pre_run] builds nothing yet.  When its
    set-up succeeds it leaves rendering blocked ([_is_running] cleared,
    one more pending future), has fixed the colour depth (the configured
    one when it is 1, 4, 8 or 24 bits, the terminal's otherwise) and
    installed a style, and its only calls are the key bindings, the
    subscription to the terminal colours and the scheduling of the
    feedback coroutine: no tab is opened and the layout is untouched
    until that coroutine runs. *)
Theorem pre_run_interactive_blocks st :
  input_closed st = false ->
  fst (pre_run st) = Ok tt ->
  let st' := snd (pre_run st) in
  _is_running st' = false /\
  _waiting_for_cpr_futures (renderer st') =
    S (_waiting_for_cpr_futures (renderer st)) /\
  is_Some (style (renderer st')) /\
  _color_depth st' =
    from_option id (depth_of_color_value (term_info st))
      (color_depth (config st) ≫= _COLOR_DEPTHS) /\
  tabs st' = tabs st /\
  layout st' = layout st /\
  events st' =
    events st ++
    [ EvLoadKeyBindings; EvSubscribe colors;
      EvBackgroundTask await_terminal_feedback ].
Proof.
  intros Hc. rewrite (pre_run_interactive st Hc).
  destruct (pre_run_setup_run st) as (r & p & x & E). cbv zeta in E.
  unfold bind at 1 2. rewrite E.
  destruct r as [s|e]; [|cbn; discriminate].
  intros _. unfold emit, modify.
  destruct x; cbn; rewrite <- app_assoc;
    (repeat split; try reflexivity); eexists; reflexivity.
Qed.

Section StartupOrder.

(** The registered callables leave the terminal queries alone. *)
Hypothesis callables_quiet : forall cb, negotiation_free (run_callable cb).


End StartupOrder.

(** ** The status bar *)

Section StatusBarProperties.

Variable FormattedText : Type.
Variable truthy : FormattedText -> bool.
Variable to_formatted_text : FormattedText -> string -> list Fragment.
Variable container_has_focus : Layout -> Container -> bool.

#[local] Abbreviation Field := (Field FormattedText).
#[local] Abbreviation field_truthy := (field_truthy FormattedText truthy).
#[local] Abbreviation field_fragments :=
  (field_fragments FormattedText to_formatted_text).
#[local] Abbreviation status_field :=
  (status_field FormattedText truthy to_formatted_text).
#[local] Abbreviation status_entries :=
  (status_entries FormattedText container_has_focus).
#[local] Abbreviation format_status :=
  (format_status FormattedText truthy to_formatted_text container_has_focus).

Lemma status_fields_fold (fields : list Field) (output : list Fragment) :
  fold_left status_field fields output =
  output ++
  flat_map
    (fun field =>
       ("class:status.field", " ") :: field_fragments field ++
       [("class:status.field", " "); ("class:status", " ")])
    (filter (fun field => field_truthy field = true) fields).
Proof.
  revert output. induction fields as [|f fields IH]; intros output.
  - cbn. rewrite app_nil_r. reflexivity.
  - cbn [fold_left]. rewrite IH. rewrite filter_cons.
    unfold status_field at 1.
    destruct (field_truthy f) eqn:Ht.
    + rewrite decide_True by reflexivity.
      cbn [flat_map]. cbn zeta. cbn [app]. rewrite <- !app_assoc.
      cbn [app]. rewrite <- !app_assoc. reflexivity.
    + rewrite decide_False by discriminate. reflexivity.
Qed.

(** X20: the status bar separates its fields and does not end with a
    separator.  Of the fields of the requested side only the truthy ones
    are shown, in order; each is rendered as a space, its fragments and a
    space, and one separator stands between two consecutive fields: the
    output followed by one separator is the concatenation of the
    rendered fields each followed by a separator.  The output is empty
    exactly when no field is truthy, and otherwise ends with the closing
    space of the last field. *)
Theorem format_status_separates
    (container_statuses : list (Container * (list Field * list Field)))
    (status_default : list Field * list Field)
    (part : Part) (st : App) :
  let entries := status_entries container_statuses status_default st in
  let fields :=
    match part with part_left => fst entries | part_right => snd entries end in
  let shown := filter (fun field => field_truthy field = true) fields in
  let output := format_status container_statuses status_default part st in
  (output = [] <-> shown = []) /\
  (shown <> [] ->
   output ++ [("class:status", " ")] =
     flat_map
       (fun field =>
          ("class:status.field", " ") :: field_fragments field ++
          [("class:status.field", " "); ("class:status", " ")])
       shown /\
   last output = Some ("class:status.field", " ")).
Proof.
  intros entries fields shown output.
  subst output. unfold format_status. cbv zeta.
  fold entries. fold fields.
  rewrite status_fields_fold. fold shown. rewrite app_nil_l.
  set (block := fun field : Field =>
    ("class:status.field", " ") :: field_fragments field ++
    [("class:status.field", " "); ("class:status", " ")]).
  assert (Hsnoc : forall l : list Field, l <> [] ->
    exists pre,
      flat_map block l =
      (pre ++ [("class:status.field", " ")]) ++ [("class:status", " ")]).
  { induction l as [|f l IH]; [congruence|]. intros _.
    destruct l as [|g l].
    - exists (("class:status.field", " ") :: field_fragments f).
      cbn [flat_map]. rewrite app_nil_r. subst block. cbn beta.
      change (?a :: ?x ++ [?b; ?c]) with ((a :: x) ++ [b] ++ [c]).
      rewrite app_assoc. reflexivity.
    - destruct IH as (pre & E); [discriminate|].
      exists (block f ++ pre).
      change (flat_map block (f :: g :: l))
        with (block f ++ flat_map block (g :: l)).
      rewrite E, <- !app_assoc. reflexivity. }
  destruct shown as [|f shown'] eqn:Es.
  - cbn. split; [tauto|congruence].
  - destruct (Hsnoc (f :: shown')) as (pre & E); [discriminate|].
    rewrite E.
    destruct ((pre ++ [("class:status.field", " ")]) ++ [("class:status", " ")])
      as [|x xs] eqn:Ex.
    { destruct pre; discriminate. }
    rewrite <- Ex. rewrite removelast_last.
    split.
    + split; [|discriminate]. intros H. destruct pre; discriminate.
    + intros _. split; [reflexivity|]. apply last_snoc.
Qed.

End StatusBarProperties.

(** ** The order of the close chain *)

Section ExitOrder.

(** The layout accepts the focus request for a tab. *)
Hypothesis tabs_take_focus : forall t (l : Layout), is_Some (focus (FTab t) l).

(** X21: when every open tab completes its close, [TuiApp.exit] asks the
    tabs to close one by one from the last to the first, each exactly
    once, removes them all, and calls the real exit once, after the last
    close request and as the last thing it does. *)
Theorem exit_closes_tabs_last_to_first ts :
  forall st,
    tabs st = ts ->
    ts <> [] ->
    NoDup ts ->
    Forall (fun t => closes t = true) ts ->
    exists st' evs,
      TuiApp_exit st = (Ok tt, st') /\
      tabs st' = [] /\
      events st' = events st ++ evs ++ [EvReallyClose] /\
      close_requests evs = rev ts /\
      length evs = length ts.
Proof.
  induction ts as [|a l IH] using rev_ind; intros st Ht Hne Hnd Hall;
    [congruence|].
  apply Forall_app in Hall as [Hl Ha].
  apply Forall_cons in Ha as [Ha _].
  destruct (decide (l = [])) as [->|Hl0].
  - destruct (TuiApp_exit_last_closes tabs_take_focus a st Ht Ha)
      as (st1 & E & Ht1 & He1).
    exists st1, [EvTabClose a final_cb]. auto.
  - destruct (list_snoc_inv l Hl0) as (pre & b & ->).
    assert (Ht' : tabs st = pre ++ [b; a])
      by (rewrite Ht, <- app_assoc; reflexivity).
    assert (Hnd0 : NoDup (tabs st)) by (rewrite Ht; exact Hnd).
    destruct (TuiApp_exit_step tabs_take_focus pre b a st Ht' Hnd0 Ha)
      as (st1 & E & Ht1 & He1).
    apply NoDup_app in Hnd as (Hnd & _ & _).
    destruct (IH st1 Ht1 Hl0 Hnd Hl)
      as (st' & evs & E' & Ht2 & He2 & Hreq & Hlen).
    exists st', (EvTabClose a (build_chain (tabs st)) :: evs).
    split; [rewrite E; exact E'|]. split; [exact Ht2|]. split; [|split].
    + rewrite He2, He1, <- app_assoc. reflexivity.
    + rewrite rev_unit.
      unfold close_requests in *. cbn [omap list_omap]. rewrite Hreq.
      reflexivity.
    + cbn [length]. rewrite Hlen, !length_app. cbn [length]. lia.
Qed.

(** X22: when a tab declines to close, the chain stops there.  The tabs
    after it, which all complete their close, are asked from the last to
    the first and removed; the declining tab is asked once and stays,
    with the tabs before it, which are never asked; and the real exit is
    not called: the close requests are the only events. *)
Theorem exit_stops_at_declining_tab (l2 : list Tab) :
  forall (l1 : list Tab) (d : Tab) st,
    tabs st = l1 ++ d :: l2 ->
    NoDup (tabs st) ->
    closes d = false ->
    Forall (fun t => closes t = true) l2 ->
    exists st' evs,
      TuiApp_exit st = (Ok tt, st') /\
      tabs st' = l1 ++ [d] /\
      events st' = events st ++ evs /\
      close_requests evs = rev (d :: l2) /\
      length evs = length (d :: l2).
Proof.
  induction l2 as [|a l2 IH] using rev_ind; intros l1 d st Ht Hnd Hd Hall.
  - exists (set_events (events st ++ [EvTabClose d (build_chain (tabs st))]) st),
      [EvTabClose d (build_chain (tabs st))].
    split; [exact (TuiApp_exit_declines l1 d st Ht Hd)|]. auto.
  - apply Forall_app in Hall as [Hl Ha].
    apply Forall_cons in Ha as [Ha _].
    assert (Hne : l1 ++ d :: l2 <> []) by (destruct l1; discriminate).
    destruct (list_snoc_inv _ Hne) as (pre & b & Epre).
    assert (Ht' : tabs st = pre ++ [b; a]).
    { rewrite Ht. change (d :: l2 ++ [a]) with ((d :: l2) ++ [a]).
      rewrite app_assoc, Epre, <- app_assoc. reflexivity. }
    destruct (TuiApp_exit_step tabs_take_focus pre b a st Ht' Hnd Ha)
      as (st1 & E & Ht1 & He1).
    rewrite <- Epre in Ht1.
    assert (Hnd1 : NoDup (tabs st1)).
    { rewrite Ht1. rewrite Ht in Hnd.
      change (d :: l2 ++ [a]) with ((d :: l2) ++ [a]) in Hnd.
      rewrite app_assoc in Hnd. apply NoDup_app in Hnd as (Hnd & _ & _).
      exact Hnd. }
    destruct (IH l1 d st1 Ht1 Hnd1 Hd Hl)
      as (st' & evs & E' & Ht2 & He2 & Hreq & Hlen).
    exists st', (EvTabClose a (build_chain (tabs st)) :: evs).
    split; [rewrite E; exact E'|]. split; [exact Ht2|]. split; [|split].
    + rewrite He2, He1, <- app_assoc. reflexivity.
    + change (d :: l2 ++ [a]) with ((d :: l2) ++ [a]). rewrite rev_unit.
      unfold close_requests in *. cbn [omap list_omap]. rewrite Hreq.
      reflexivity.
    + change (d :: l2 ++ [a]) with ((d :: l2) ++ [a]).
      cbn [length]. rewrite Hlen, (length_app (d :: l2)). cbn [length]. lia.
Qed.

End ExitOrder.

End Properties.

(** * The properties on the sample applications *)

Lemma sl_focus_tab_ok (t : Tab) (l : SimpleLayout) :
  is_Some (focus (FTab t) l).
Proof. eexists. reflexivity. Qed.

Lemma NoDup_sample_tabs : NoDup [tab_A; tab_B; tab_C].
Proof. apply (bool_decide_unpack _). vm_compute. exact I. Qed.

Lemma ex_world_callables_negotiation_free (closes : Tab -> bool) (cb : Callable) :
  negotiation_free (run_callable (World := ex_world closes) cb).
Proof. apply nf_emit. reflexivity. Qed.

(** C1, the scenario as the specification words it: [tab_A] and [tab_B] would
    close, [tab_C] declines.  [tab_C] is asked first, so nothing is
    removed: the collection is not [[tab_C]]. *)
Lemma exit_C_declines_counterexample :
  let W := ex_world (all_but tab_C) in
  let st := ex_app [tab_A; tab_B; tab_C] ex_layout in
  closes tab_A = true /\ closes tab_B = true /\ closes tab_C = false /\
  fst (TuiApp_exit st) = Ok tt /\
  tabs (snd (TuiApp_exit st)) = [tab_A; tab_B; tab_C] /\
  tabs (snd (TuiApp_exit st)) <> [tab_C].
Proof.
  intros W st. repeat split; try reflexivity.
  vm_compute. discriminate.
Qed.

Lemma exit_three_tabs_witness :
  let W := ex_world (all_but tab_A) in
  let st := ex_app [tab_A; tab_B; tab_C] ex_layout in
  tabs st = [tab_A; tab_B; tab_C] /\
  NoDup [tab_A; tab_B; tab_C] /\
  closes tab_C = true /\ closes tab_B = true /\ closes tab_A = false /\
  exists st',
    TuiApp_exit st = (Ok tt, st') /\
    tabs st' = [tab_A] /\
    events st' =
      events st ++
      [ EvTabClose tab_C (inner tab_B tab_C (inner tab_A tab_B final_cb));
        EvTabClose tab_B (inner tab_A tab_B final_cb);
        EvTabClose tab_A final_cb ].
Proof.
  intros W st.
  split; [reflexivity|]. split; [exact NoDup_sample_tabs|].
  split; [reflexivity|]. split; [reflexivity|]. split; [reflexivity|].
  exact (proj2
           (exit_three_tabs (W := W) sl_focus_tab_ok tab_A tab_B tab_C st
              eq_refl NoDup_sample_tabs)
           eq_refl eq_refl eq_refl).
Defined.



(** C4: [tab_B] has been asked to close and has not answered; a second
    [exit] is not a no-op.  It asks [tab_B] again with a second chain, and
    after a tab was opened in between it asks that tab, which the chain in
    flight does not know. *)
Lemma exit_twice_counterexample :
  let W := ex_world (fun _ => false) in
  let st := ex_app [tab_A; tab_B] ex_layout in
  let st1 := snd (TuiApp_exit st) in
  let request := EvTabClose tab_B (inner tab_A tab_B final_cb) in
  events st1 = [request] /\
  TuiApp_exit st1 <> (Ok tt, st1) /\
  events (snd (TuiApp_exit st1)) = [request; request] /\
  events (snd (TuiApp_exit (snd (tabs_append tab_C st1)))) =
    [ request;
      EvTabClose tab_C (inner tab_B tab_C (inner tab_A tab_B final_cb)) ].
Proof.
  intros W st st1 request. repeat split; try reflexivity.
  vm_compute. discriminate.
Qed.

Lemma exit_builds_a_chain_each_time_witness :
  let W := ex_world (fun _ => false) in
  let st := ex_app [tab_A; tab_B] ex_layout in
  let request := EvTabClose tab_B (build_chain (tabs st)) in
  tabs st = [tab_A] ++ [tab_B] /\
  closes tab_B = false /\
  events (snd (TuiApp_exit (snd (TuiApp_exit st)))) =
    events st ++ [request; request].
Proof.
  intros W st request.
  split; [reflexivity|]. split; [reflexivity|].
  exact (proj2 (proj2
    (exit_builds_a_chain_each_time (W := W) [tab_A] tab_B st eq_refl eq_refl))).
Defined.

Lemma exit_without_tabs_witness :
  let W := ex_world (fun _ => true) in
  let st := ex_app [] ex_layout in
  tabs st = [] /\
  TuiApp_exit st = (Ok tt, set_events (events st ++ [EvReallyClose]) st).
Proof.
  intros W st. split; [reflexivity|].
  exact (exit_without_tabs (W := W) st eq_refl).
Defined.

Lemma tab_index_in_range_witness :
  let W := ex_world (fun _ => true) in
  let st1 :=
    run_ops
      [op_open_file "a.ipynb"; op_open_file "b.ipynb"; op_close_tab None]
      (ex_app [] ex_layout) in
  tabs st1 <> [] /\
  exists t,
    fst (tab st1) = Ok (Some t) /\
    tabs (snd (tab st1)) = tabs st1 /\
    (0 <= _tab_idx (snd (tab st1)) < Z.of_nat (length (tabs st1)))%Z /\
    tabs st1 !! Z.to_nat (_tab_idx (snd (tab st1))) = Some t.
Proof.
  intros W st1.
  assert (Hne : tabs st1 <> []) by (vm_compute; discriminate).
  split; [exact Hne|].
  exact (proj2 (tab_index_in_range (W := W) _ (ex_app [] ex_layout)) Hne).
Defined.

Lemma open_file_same_path_witness :
  let W := ex_world (fun _ => true) in
  let st := ex_app [tab_A] ex_layout in
  (exists t, t ∈ tabs st /\ tab_path t = Some (parse_path "a.ipynb")) /\
  open_file "a.ipynb" st =
  (Ok tt,
   set_events
     (events st ++
      [ EvLog (log_opening_file "a.ipynb");
        EvLog (log_already_open "a.ipynb") ]) st).
Proof.
  intros W st.
  assert (H : exists t, t ∈ tabs st /\ tab_path t = Some (parse_path "a.ipynb")).
  { exists tab_A. split; [left|reflexivity]. }
  split; [exact H|].
  exact (proj1 (open_file_same_path (W := W) "a.ipynb" st) H).
Defined.

Lemma dialog_noop_when_showing_witness :
  let st := set_has_dialog true (ex_app [tab_A] ex_layout) in
  has_dialog st = true /\
  dialog "About" 0 [("OK"%string, None)] None st = (Ok tt, st).
Proof.
  intros st. split; [reflexivity|].
  exact (dialog_noop_when_showing _ _ _ _ st eq_refl).
Defined.

(** C5: the control that held the focus when the dialog was shown
    (control 5) is still in the layout but no longer focusable.  The
    layout rejects the request, the handler swallows the [ValueError], and
    the focus stays on the dialog's button (control 60). *)
Lemma handler_inner_unfocusable_counterexample :
  let W := ex_world (fun _ => true) in
  let l := mkSimpleLayout 60 [0; 5; 60] [5] in
  let dialog_float := mkFloat 50 "About" 0 [] [] in
  let st := set_has_dialog true (set_dialogs [dialog_float] (ex_app [] l)) in
  let h := mkHandler 5 50 None in
  let st' := snd (handler_inner h st) in
  fst (handler_inner h st) = Ok tt /\
  dialogs st' = [] /\
  has_dialog st' = false /\
  h_focused h ∈ find_all_controls (layout st') /\
  current_control (layout st') <> h_focused h.
Proof.
  intros W l dialog_float st h st'. repeat split.
  - right. left.
  - vm_compute. discriminate.
Qed.

Lemma handler_inner_dismisses_witness :
  let W := ex_world (fun _ => true) in
  let l := mkSimpleLayout 60 [0; 5; 60] [] in
  let dialog_float := mkFloat 50 "About" 0 [] [] in
  let st := set_has_dialog true (set_dialogs [dialog_float] (ex_app [] l)) in
  let h := mkHandler 5 50 (Some 1) in
  exists st2,
    handler_inner h st = run_callable 1 st2 /\
    dialogs st2 = [] /\
    has_dialog st2 = false /\
    layout st2 = mkSimpleLayout 5 [0; 5; 60] [].
Proof.
  intros W l dialog_float st h.
  destruct (handler_inner_dismisses (W := W) h st)
    as (st2 & Hrun & Hd & _ & Hh & _ & _ & _ & Hl & _).
  exists st2. split; [exact Hrun|]. split; [exact Hd|]. split; [exact Hh|].
  apply Hl; [right; left|reflexivity].
Defined.

Lemma create_merged_style_transformations_witness :
  let W := ex_world (fun _ => true) in
  let st := ex_app [] ex_layout in
  fst (create_merged_style st) <> Raise KeyError /\
  color_scheme (config st) = "inverse"%string /\
  style_transformation (snd (create_merged_style st)) =
    [ mkConditional
        (SetDefaultColorStyleTransformation "#ffffff" "#000000") true;
      mkConditional SwapLightAndDarkStyleTransformation true ].
Proof.
  intros W st.
  assert (Hok : fst (create_merged_style st) <> Raise KeyError)
    by (vm_compute; discriminate).
  split; [exact Hok|]. split; [reflexivity|].
  destruct (create_merged_style_transformations (W := W) st Hok)
    as (fg & bg & ad & asw & Hfg & Hbg & Hst & _ & _ & Hinv).
  destruct (Hinv eq_refl) as [-> ->].
  vm_compute in Hfg. vm_compute in Hbg.
  injection Hfg as <-. injection Hbg as <-.
  exact Hst.
Defined.


(** * The further properties on the sample applications *)

Lemma cleanup_closed_tab_removes_witness :
  let W := ex_world (fun _ => true) in
  let st := ex_app [tab_A; tab_B; tab_C] ex_layout in
  tabs st = [tab_A] ++ tab_B :: [tab_C] /\
  (tab_B ∉ [tab_A]) /\
  tabs (snd (cleanup_closed_tab tab_B st)) = [tab_A; tab_C] /\
  events (snd (cleanup_closed_tab tab_B st)) = events st.
Proof.
  intros W st.
  assert (Hn : tab_B ∉ [tab_A])
    by (apply (bool_decide_unpack _); vm_compute; exact I).
  split; [reflexivity|]. split; [exact Hn|].
  pose proof (cleanup_closed_tab_removes tab_B [tab_A] [tab_C] st
                eq_refl Hn) as (Ht & He & _).
  split; [exact Ht|exact He].
Defined.

Lemma next_previous_tab_witness :
  let W := ex_world (fun _ => true) in
  let st := ex_app [tab_A; tab_B; tab_C] ex_layout in
  tabs st <> [] /\
  _tab_idx (snd (previous_tab st)) = 2%Z /\
  _tab_idx (snd ((next_tab ;; previous_tab) st)) = 0%Z.
Proof.
  intros W st.
  assert (Hne : tabs st <> []) by discriminate.
  split; [exact Hne|].
  pose proof (next_previous_tab sl_focus_tab_ok st Hne) as H.
  cbv zeta in H. destruct H as (_ & (_ & Hp) & (_ & Hnp & _) & _).
  split; [exact Hp|exact Hnp].
Defined.

Lemma close_tab_twice_witness :
  let W := ex_world (fun _ => true) in
  let st := ex_app [tab_A; tab_B; tab_C] ex_layout in
  let st1 := snd (close_tab (Some tab_B) st) in
  tabs st = [tab_A] ++ tab_B :: [tab_C] /\
  (tab_B ∉ [tab_A]) /\
  (tab_B ∉ [tab_C]) /\
  closes tab_B = true /\
  tabs st1 = [tab_A; tab_C] /\
  fst (close_tab (Some tab_B) st1) = Raise ValueError.
Proof.
  intros W st st1.
  assert (Hn1 : tab_B ∉ [tab_A])
    by (apply (bool_decide_unpack _); vm_compute; exact I).
  assert (Hn2 : tab_B ∉ [tab_C])
    by (apply (bool_decide_unpack _); vm_compute; exact I).
  split; [reflexivity|]. split; [exact Hn1|]. split; [exact Hn2|].
  split; [reflexivity|].
  pose proof (close_tab_twice (W := W) sl_focus_tab_ok tab_B [tab_A] [tab_C]
                st eq_refl Hn1 Hn2 eq_refl) as H.
  cbv zeta in H. destruct H as (_ & Ht & He & _).
  split; [exact Ht|exact He].
Defined.

Lemma open_files_keeps_paths_distinct_witness :
  let W := ex_world (fun _ => true) in
  let st := ex_app [tab_A] ex_layout in
  NoDup (omap tab_path (tabs st)) /\
  NoDup (omap tab_path (tabs (snd (open_files st)))).
Proof.
  intros W st.
  assert (Hnd : NoDup (omap tab_path (tabs st)))
    by (apply (bool_decide_unpack _); vm_compute; exact I).
  split; [exact Hnd|].
  exact (proj2 (open_files_keeps_paths_distinct (W := W) st Hnd)).
Defined.




Lemma dialog_show_then_dismiss_witness :
  let W := ex_world (fun _ => true) in
  let st := ex_app [tab_A] ex_layout in
  let buttons := [("Yes"%string, Some 1); ("No"%string, None)] in
  let st1 := snd (dialog "Quit" 0 buttons None st) in
  let h := mkHandler 0 100 (Some 1) in
  has_dialog st = false /\
  Forall (fun g => float_id g < next_id st) (dialogs st) /\
  (exists f, last (dialogs st1) = Some f /\
     h ∈ map button_handler (float_buttons f) ++
         map kb_handler (float_key_bindings f)) /\
  exists st2,
    handler_inner h st1 = run_callable 1 st2 /\
    dialogs st2 = [] /\
    has_dialog st2 = false /\
    tabs st2 = [tab_A].
Proof.
  intros W st buttons st1 h.
  assert (Hold : Forall (fun g => float_id g < next_id st) (dialogs st))
    by apply Forall_nil_2.
  assert (Hin : exists f, last (dialogs st1) = Some f /\
     h ∈ map button_handler (float_buttons f) ++
         map kb_handler (float_key_bindings f)).
  { eexists. split; [vm_compute; reflexivity|]. vm_compute. left. }
  split; [reflexivity|]. split; [exact Hold|]. split; [exact Hin|].
  exact (dialog_show_then_dismiss (W := W) "Quit" 0 buttons None h st
           eq_refl Hold Hin).
Defined.

Lemma create_merged_style_reads_config_and_terminal_witness :
  let W := ex_world (fun _ => true) in
  let st1 := ex_app [] ex_layout in
  let st2 := set_color_palette [("fg", mkPaletteColor "#123456" "fg")]%string
               (ex_app [tab_A] ex_layout) in
  config st1 = config st2 /\
  term_info st1 = term_info st2 /\
  color_palette st1 <> color_palette st2 /\
  color_palette (snd (create_merged_style st1)) =
    color_palette (snd (create_merged_style st2)).
Proof.
  intros W st1 st2.
  split; [reflexivity|]. split; [reflexivity|]. split; [discriminate|].
  exact (proj1 (proj2
    (create_merged_style_reads_config_and_terminal (W := W) st1 st2
       eq_refl eq_refl))).
Defined.

Lemma unknown_scheme_uses_terminal_colors_witness :
  let W := ex_world (fun _ => true) in
  let st := ex_app [] ex_layout in
  (color_scheme (config st) ∉
     ["light"; "dark"; "white"; "black"; "custom"]%string) /\
  base_colors_of st =
    dict_merge DEFAULT_COLORS (colors_value (term_info st)).
Proof.
  intros W st.
  assert (Hs : color_scheme (config st) ∉
    ["light"; "dark"; "white"; "black"; "custom"]%string)
    by (apply (bool_decide_unpack _); vm_compute; exact I).
  split; [exact Hs|].
  exact (unknown_scheme_uses_terminal_colors (W := W) st Hs).
Defined.

Lemma create_merged_style_palette_witness :
  let W := ex_world (fun _ => true) in
  let st := ex_app [] ex_layout in
  let palette := color_palette (snd (create_merged_style st)) in
  NoDup (DEFAULT_COLORS.*1) /\
  fst (create_merged_style st) <> Raise KeyError /\
  is_Some (dict_get "hl" palette) /\
  dict_get "hl" palette = dict_get "ansiblue" palette.
Proof.
  intros W st palette.
  assert (Hnd : NoDup (DEFAULT_COLORS.*1))
    by (apply (bool_decide_unpack _); vm_compute; exact I).
  assert (Hok : fst (create_merged_style st) <> Raise KeyError)
    by (vm_compute; discriminate).
  split; [exact Hnd|]. split; [exact Hok|].
  pose proof (create_merged_style_palette (W := W) st Hnd Hok) as H.
  cbv zeta in H. destruct H as (Hhl & Heq & _).
  split; [exact Hhl|exact Heq].
Defined.

Lemma pre_run_interactive_blocks_witness :
  let W := ex_world (fun _ => true) in
  let st := ex_interactive_app [] ex_layout in
  let st' := snd (pre_run st) in
  input_closed st = false /\
  fst (pre_run st) = Ok tt /\
  _is_running st' = false /\
  tabs st' = [] /\
  layout st' = ex_layout /\
  events st' =
    [ EvLoadKeyBindings; EvSubscribe colors;
      EvBackgroundTask await_terminal_feedback ].
Proof.
  intros W st st'.
  assert (Hok : fst (pre_run st) = Ok tt) by reflexivity.
  split; [reflexivity|]. split; [exact Hok|].
  pose proof (pre_run_interactive_blocks (W := W) st eq_refl Hok) as H.
  cbv zeta in H. destruct H as (Hrun & _ & _ & _ & Ht & Hl & He).
  split; [exact Hrun|]. split; [exact Ht|]. split; [exact Hl|exact He].
Defined.


Lemma exit_closes_tabs_last_to_first_witness :
  let W := ex_world (fun _ => true) in
  let st := ex_app [tab_A; tab_B; tab_C] ex_layout in
  tabs st = [tab_A; tab_B; tab_C] /\
  [tab_A; tab_B; tab_C] <> [] /\
  NoDup [tab_A; tab_B; tab_C] /\
  Forall (fun t => closes t = true) [tab_A; tab_B; tab_C] /\
  exists st' evs,
    TuiApp_exit st = (Ok tt, st') /\
    tabs st' = [] /\
    events st' = events st ++ evs ++ [EvReallyClose] /\
    close_requests evs = [tab_C; tab_B; tab_A] /\
    length evs = 3.
Proof.
  intros W st.
  assert (Hne : [tab_A; tab_B; tab_C] <> []) by discriminate.
  assert (Hall : Forall (fun t => closes t = true) [tab_A; tab_B; tab_C])
    by (repeat constructor).
  split; [reflexivity|]. split; [exact Hne|].
  split; [exact NoDup_sample_tabs|]. split; [exact Hall|].
  exact (exit_closes_tabs_last_to_first (W := W) sl_focus_tab_ok
           [tab_A; tab_B; tab_C] st eq_refl Hne NoDup_sample_tabs Hall).
Defined.

Lemma exit_stops_at_declining_tab_witness :
  let W := ex_world (all_but tab_B) in
  let st := ex_app [tab_A; tab_B; tab_C] ex_layout in
  tabs st = [tab_A] ++ tab_B :: [tab_C] /\
  NoDup (tabs st) /\
  closes tab_B = false /\
  Forall (fun t => closes t = true) [tab_C] /\
  exists st' evs,
    TuiApp_exit st = (Ok tt, st') /\
    tabs st' = [tab_A; tab_B] /\
    events st' = events st ++ evs /\
    close_requests evs = [tab_C; tab_B] /\
    length evs = 2.
Proof.
  intros W st.
  assert (Hall : Forall (fun t => closes t = true) [tab_C])
    by (repeat constructor).
  split; [reflexivity|]. split; [exact NoDup_sample_tabs|].
  split; [reflexivity|]. split; [exact Hall|].
  exact (exit_stops_at_declining_tab (W := W) sl_focus_tab_ok [tab_C]
           [tab_A] tab_B st eq_refl NoDup_sample_tabs eq_refl Hall).
Defined.
